(** * Endpoint resolution of botocore: rule-set interpreter, function
    library, builtin resolver, auth-scheme mapping and the provider cache.

    The repository slice ships the tests of [botocore.endpoint_provider]
    and [botocore.regions] (src/tests/unit/test_endpoint_provider.py) but
    not the two modules themselves.  The definitions below embed those
    modules as described by the specification; where a test pins a
    behaviour, the embedding agrees with the test. *)

From Stdlib Require Import String Ascii ZArith List Bool.
From stdpp Require Import base gmap strings list.

Import ListNotations.
Local Open Scope string_scope.
#[local] Set Warnings "-register-all".

(* ------------------------------------------------------------------ *)
(** ** Python values *)

(** The dynamically typed values that flow through the interpreter:
    [None], [str], [bool], [int], [list] and [dict] (an association list,
    in insertion order). *)
Inductive value : Type :=
| VNone
| VStr (s : string)
| VBool (b : bool)
| VInt (z : Z)
| VList (l : list value)
| VDict (kvs : list (string * value)).

(** The error classes of [botocore.exceptions] raised on this path. *)
Inductive error : Type :=
| EndpointResolutionError (msg : string)
| AccountIdNotFound
| InvalidConfigError (msg : string)
| MissingDependencyException (msg : string)
| UnknownSignatureVersionError (signature_version : string)
(* Python built-ins raised by dict indexing and string formatting *)
| KeyError (key : string)
| ValueError (msg : string)
| TypeError (msg : string).

(** A computation that returns a [T] or raises one of the errors. *)
Definition result (T : Type) : Type := error + T.

#[global] Instance result_ret : MRet result := fun _ x => inr x.
#[global] Instance result_bind : MBind result :=
  fun _ _ k m => match m with inl e => inl e | inr x => k x end.

Definition raise {T} (e : error) : result T := inl e.

(** A library function applied to an argument of the wrong type: a
    resolution error, as type errors are not silently coerced (the
    specification gives no message text for these). *)
Definition type_error (fn : string) : error :=
  EndpointResolutionError ("Invalid argument type for " ++ fn).

(* ------------------------------------------------------------------ *)
(** ** String helpers ([str.split], [str.startswith], ...) *)

Module Str.

(** [str.split] on every character satisfying [p] (for one separator
    character this is Python's [s.split(c)]; for a character class it is
    [re.split("[...]", s)]). *)
Fixpoint split_by (p : ascii -> bool) (s : string) : list string :=
  match s with
  | EmptyString => [""]
  | String ch rest =>
      if p ch then "" :: split_by p rest
      else match split_by p rest with
           | h :: t => String ch h :: t
           | [] => [String ch ""]
           end
  end.

(** Python's [s.split(c, n)]: at most [n] splits, the remainder is the
    last piece. *)
Fixpoint split_max (p : ascii -> bool) (n : nat) (s : string) : list string :=
  match s with
  | EmptyString => [""]
  | String ch rest =>
      match n with
      | O => [s]
      | S n' =>
          if p ch then "" :: split_max p n' rest
          else match split_max p n rest with
               | h :: t => String ch h :: t
               | [] => [String ch ""]
               end
      end
  end.

Definition is_char (c : ascii) (ch : ascii) : bool := Ascii.eqb ch c.

Definition startswith (pre s : string) : bool := String.prefix pre s.

Fixpoint forallb_str (p : ascii -> bool) (s : string) : bool :=
  match s with
  | EmptyString => true
  | String ch rest => p ch && forallb_str p rest
  end.

Fixpoint existsb_str (p : ascii -> bool) (s : string) : bool :=
  match s with
  | EmptyString => false
  | String ch rest => p ch || existsb_str p rest
  end.

Definition first_char (s : string) : option ascii :=
  match s with EmptyString => None | String ch _ => Some ch end.

Fixpoint last_char (s : string) : option ascii :=
  match s with
  | EmptyString => None
  | String ch EmptyString => Some ch
  | String _ rest => last_char rest
  end.

Definition in_range (lo hi : ascii) (ch : ascii) : bool :=
  (N.leb (N_of_ascii lo) (N_of_ascii ch) && N.leb (N_of_ascii ch) (N_of_ascii hi))%bool.

Definition is_digit (ch : ascii) : bool := in_range "0" "9" ch.
Definition is_lower (ch : ascii) : bool := in_range "a" "z" ch.
Definition is_upper (ch : ascii) : bool := in_range "A" "Z" ch.

End Str.

(* ------------------------------------------------------------------ *)
(** ** [aws.parseArn] *)

(** Modelled from the spec: [RuleSetStandardLibrary.aws_parse_arn]
    (botocore/endpoint_provider.py is not part of the slice).  An absent
    input gives [None]; a string must start with ["arn:"]; it is split
    on [':'] into at most six fields (the sixth keeps any further
    colons); fewer than six fields give [None]; the sixth field, the
    resource, is split on ['/'] or [':'] into the [resourceId]
    sequence.  Any other argument is a type error. *)
Definition aws_parse_arn (v : value) : result value :=
  match v with
  | VNone => mret VNone
  | VStr s =>
      if Str.startswith "arn:" s then
        match Str.split_max (Str.is_char ":") 5 s with
        | [_; partition; service; region; account; resource] =>
            mret (VDict [("partition", VStr partition);
                         ("service", VStr service);
                         ("region", VStr region);
                         ("accountId", VStr account);
                         ("resourceId",
                           VList (map VStr
                             (Str.split_by (fun ch => Str.is_char "/" ch || Str.is_char ":" ch)
                                resource)))])
        | _ => mret VNone
        end
      else mret VNone
  | _ => raise (type_error "aws.parseArn")
  end.

(* ------------------------------------------------------------------ *)
(** ** Region regular expressions

    The partition table carries one region regular expression per
    partition (e.g. [^cn\-\w+\-\d+$]).  They are anchored at both ends,
    so [re.match] is a whole-string match; it is decided here by
    Brzozowski derivatives. *)

Module Regex.

Inductive regex : Type :=
| Empty                          (* matches nothing *)
| Eps                            (* the empty string *)
| Class (p : ascii -> bool)      (* one character of a class *)
| Seq (r1 r2 : regex)
| Alt (r1 r2 : regex)
| Star (r : regex).

Fixpoint nullable (r : regex) : bool :=
  match r with
  | Empty => false
  | Eps => true
  | Class _ => false
  | Seq r1 r2 => nullable r1 && nullable r2
  | Alt r1 r2 => nullable r1 || nullable r2
  | Star _ => true
  end.

Fixpoint deriv (ch : ascii) (r : regex) : regex :=
  match r with
  | Empty | Eps => Empty
  | Class p => if p ch then Eps else Empty
  | Seq r1 r2 =>
      if nullable r1 then Alt (Seq (deriv ch r1) r2) (deriv ch r2)
      else Seq (deriv ch r1) r2
  | Alt r1 r2 => Alt (deriv ch r1) (deriv ch r2)
  | Star r1 => Seq (deriv ch r1) (Star r1)
  end.

Fixpoint matches (r : regex) (s : string) : bool :=
  match s with
  | EmptyString => nullable r
  | String ch rest => matches (deriv ch r) rest
  end.

(** Literal text, [\w], [\d], [r+] and an alternation of words. *)
Fixpoint lit (s : string) : regex :=
  match s with
  | EmptyString => Eps
  | String ch rest => Seq (Class (Str.is_char ch)) (lit rest)
  end.

Definition word_char (ch : ascii) : bool :=
  Str.is_lower ch || Str.is_upper ch || Str.is_digit ch || Str.is_char "_" ch.

Definition plus (r : regex) : regex := Seq r (Star r).
Definition w_plus : regex := plus (Class word_char).
Definition d_plus : regex := plus (Class Str.is_digit).

Fixpoint alts (ws : list string) : regex :=
  match ws with
  | [] => Empty
  | [w] => lit w
  | w :: ws' => Alt (lit w) (alts ws')
  end.

End Regex.

(* ------------------------------------------------------------------ *)
(** ** [aws.partition] *)

(** One entry of the partition table. *)
Record partition : Type := Partition {
  p_name : string;
  p_dnsSuffix : string;
  p_dualStackDnsSuffix : string;
  p_supportsFIPS : bool;
  p_supportsDualStack : bool;
  p_regions : list string;
  p_regionRegex : Regex.regex
}.

(** The partition table: the entries in table order plus the designated
    default entry. *)
Record partitions_data : Type := PartitionsData {
  partitions : list partition;
  default_partition : partition
}.

(** The result dict of [aws.partition]. *)
Definition partition_dict (p : partition) : value :=
  VDict [("name", VStr (p_name p));
         ("dnsSuffix", VStr (p_dnsSuffix p));
         ("dualStackDnsSuffix", VStr (p_dualStackDnsSuffix p));
         ("supportsFIPS", VBool (p_supportsFIPS p));
         ("supportsDualStack", VBool (p_supportsDualStack p))].

Definition partition_matches (region : string) (p : partition) : bool :=
  existsb (String.eqb region) (p_regions p) || Regex.matches (p_regionRegex p) region.

(** Modelled from the spec: [RuleSetStandardLibrary.aws_partition].  The
    region is matched against each partition's explicit region list, then
    its region regular expression, in table order; with no match, or no
    region, the designated default partition is returned. *)
Definition aws_partition (data : partitions_data) (v : value) : value :=
  match v with
  | VStr region =>
      match List.find (partition_matches region) (partitions data) with
      | Some p => partition_dict p
      | None => partition_dict (default_partition data)
      end
  | _ => partition_dict (default_partition data)
  end.

(** Modelled from the spec: the bundled partition table
    (botocore/data/partitions.json is not part of the slice), reduced to
    its first three entries; [aws] is the designated default. *)
Definition aws_std : partition :=
  Partition "aws" "amazonaws.com" "api.aws" true true
    ["us-east-1"; "us-east-2"; "us-west-1"; "us-west-2"; "eu-west-1";
     "eu-central-1"; "ap-south-1"; "ap-northeast-1"; "sa-east-1"; "ca-central-1"]
    (Regex.Seq (Regex.alts ["us"; "eu"; "ap"; "sa"; "ca"; "me"; "af"; "il"; "mx"])
       (Regex.Seq (Regex.lit "-") (Regex.Seq Regex.w_plus
          (Regex.Seq (Regex.lit "-") Regex.d_plus)))).

Definition aws_cn : partition :=
  Partition "aws-cn" "amazonaws.com.cn" "api.amazonwebservices.com.cn" true true
    ["cn-north-1"; "cn-northwest-1"]
    (Regex.Seq (Regex.lit "cn-") (Regex.Seq Regex.w_plus
       (Regex.Seq (Regex.lit "-") Regex.d_plus))).

Definition aws_us_gov : partition :=
  Partition "aws-us-gov" "amazonaws.com" "api.aws" true true
    ["us-gov-west-1"; "us-gov-east-1"]
    (Regex.Seq (Regex.lit "us-gov-") (Regex.Seq Regex.w_plus
       (Regex.Seq (Regex.lit "-") Regex.d_plus))).

Definition partitions_json : partitions_data :=
  PartitionsData [aws_std; aws_cn; aws_us_gov] aws_std.

(* ------------------------------------------------------------------ *)
(** ** [aws.isVirtualHostableS3Bucket] *)

(** "Formatted as an IPv4 address": four dot-separated groups of one to
    three digits. *)
Definition is_ipv4_formatted (s : string) : bool :=
  match Str.split_by (Str.is_char ".") s with
  | [a; b; c; d] =>
      forallb (fun g => (1 <=? String.length g)%nat && (String.length g <=? 3)%nat
                        && Str.forallb_str Str.is_digit g) [a; b; c; d]
  | _ => false
  end.

(** A character of [[a-zA-Z\d-]]. *)
Definition label_char (ch : ascii) : bool :=
  Str.is_lower ch || Str.is_upper ch || Str.is_digit ch || Str.is_char "-" ch.

(** A DNS host label, [^(?!-)[a-zA-Z\d-]{1,63}(?<!-)$]: one to 63
    letters, digits and ['-'], neither first nor last a ['-']. *)
Definition is_valid_host_label (s : string) : bool :=
  (1 <=? String.length s)%nat && (String.length s <=? 63)%nat
  && Str.forallb_str label_char s
  && negb (bool_decide (Str.first_char s = Some "-"%char))
  && negb (bool_decide (Str.last_char s = Some "-"%char)).

(** Modelled from the spec: [aws_is_virtual_hostable_s3_bucket].  An
    absent bucket is not virtual-hostable.  The name must have at least
    three characters, no uppercase letter and not be formatted as an
    IPv4 address; then the DNS label rules apply to each ['.']-separated
    label when subdomains are allowed, and to the whole name, which may
    then hold no ['.'], when they are not.  A bucket that is not a
    string, or a flag that is not a boolean, is a type error. *)
Definition aws_is_virtual_hostable_s3_bucket (bucket : value) (allow_subdomains : value)
  : result value :=
  match bucket, allow_subdomains with
  | VNone, _ => mret (VBool false)
  | VStr b, VBool allow =>
      if (String.length b <? 3)%nat || Str.existsb_str Str.is_upper b || is_ipv4_formatted b
      then mret (VBool false)
      else if allow then
        mret (VBool (forallb is_valid_host_label (Str.split_by (Str.is_char ".") b)))
      else
        mret (VBool (negb (Str.existsb_str (Str.is_char ".") b) && is_valid_host_label b))
  | _, _ => raise (type_error "aws.isVirtualHostableS3Bucket")
  end.

(* ------------------------------------------------------------------ *)
(** ** [str()] of a value, [getAttr], template strings *)

Fixpoint N_digits (fuel : nat) (n : N) (acc : string) : string :=
  match fuel with
  | O => acc
  | S f =>
      let acc' := String (ascii_of_N (48 + N.modulo n 10)) acc in
      if (N.div n 10 =? 0)%N then acc' else N_digits f (N.div n 10) acc'
  end.

Definition Z_to_string (z : Z) : string :=
  if (z <? 0)%Z then "-" ++ N_digits (S (N.size_nat (Z.to_N (- z)))) (Z.to_N (- z)) ""
  else N_digits (S (N.size_nat (Z.to_N z))) (Z.to_N z) "".

Fixpoint join (sep : string) (l : list string) : string :=
  match l with
  | [] => ""
  | [x] => x
  | x :: l' => x ++ sep ++ join sep l'
  end.

(** Python's [repr] and [str] of a value. *)
Fixpoint py_repr (v : value) : string :=
  match v with
  | VNone => "None"
  | VStr s => "'" ++ s ++ "'"
  | VBool true => "True"
  | VBool false => "False"
  | VInt z => Z_to_string z
  | VList l => "[" ++ join ", " (map py_repr l) ++ "]"
  | VDict kvs => "{" ++ join ", " (map (fun kv => "'" ++ fst kv ++ "': " ++ py_repr (snd kv)) kvs) ++ "}"
  end.

Definition py_str (v : value) : string :=
  match v with VStr s => s | _ => py_repr v end.

(** Python truthiness. *)
Definition truthy (v : value) : bool :=
  match v with
  | VNone => false
  | VStr s => negb (String.eqb s "")
  | VBool b => b
  | VInt z => negb (Z.eqb z 0)
  | VList l => negb (Nat.eqb (length l) 0)
  | VDict kvs => negb (Nat.eqb (length kvs) 0)
  end.

Definition dict_get (k : string) (kvs : list (string * value)) : option value :=
  match List.find (fun kv => String.eqb (fst kv) k) kvs with
  | Some kv => Some (snd kv)
  | None => None
  end.

Fixpoint parse_nat_aux (s : string) (acc : nat) : option nat :=
  match s with
  | EmptyString => Some acc
  | String ch rest =>
      if Str.is_digit ch then parse_nat_aux rest (10 * acc + (nat_of_ascii ch - 48))
      else None
  end.

Definition parse_nat (s : string) : option nat :=
  match s with EmptyString => None | _ => parse_nat_aux s 0 end.

(** A path segment [name] or [name[index]]. *)
Definition parse_segment (seg : string) : string * option nat :=
  match Str.split_by (Str.is_char "[") seg with
  | [name; idx] =>
      match Str.split_by (Str.is_char "]") idx with
      | [digits; ""] =>
          match parse_nat digits with
          | Some n => (name, Some n)
          | None => (seg, None)
          end
      | _ => (seg, None)
      end
  | _ => (seg, None)
  end.

Definition get_segment (v : value) (seg : string) : value :=
  let '(name, idx) := parse_segment seg in
  let v1 := if String.eqb name "" then v
            else match v with
                 | VDict kvs => default VNone (dict_get name kvs)
                 | _ => VNone
                 end in
  match idx with
  | None => v1
  | Some n => match v1 with VList l => default VNone (nth_error l n) | _ => VNone end
  end.

(** Modelled from the spec: [getAttr(v, path)], a dotted path with
    optional [[index]] segments; a missing key or index gives [None]. *)
Definition get_attr (v : value) (path : string) : value :=
  fold_left get_segment (Str.split_by (Str.is_char ".") path) v.

(** The variable scope of one evaluation path. *)
Abbreviation scope := (gmap string value).

(** A placeholder [{Ref}] or [{Ref#attr}]: the variable [Ref] of the
    scope (a missing one is Python's [KeyError]), then [getAttr] with
    each further [#] part. *)
Definition resolve_reference (sc : scope) (reference : string) : result value :=
  match Str.split_by (Str.is_char "#") reference with
  | r :: attrs =>
      match sc !! r with
      | Some v => mret (fold_left get_attr attrs v)
      | None => raise (KeyError r)
      end
  | [] => raise (KeyError reference)
  end.

(** Modelled from the spec: [resolve_template_string]; the text outside
    braces is copied, each [{...}] is replaced by [str()] of its
    reference. [open_ref] holds the name read so far inside a brace. *)
Fixpoint render_aux (sc : scope) (s : string) (open_ref : option string) : result string :=
  match s, open_ref with
  | EmptyString, None => mret ""
  | EmptyString, Some _ => raise (ValueError "Single '{' encountered in format string")
  | String ch rest, None =>
      if Ascii.eqb ch "{" then render_aux sc rest (Some "")
      else r ← render_aux sc rest None; mret (String ch r)
  | String ch rest, Some acc =>
      if Ascii.eqb ch "}" then
        v ← resolve_reference sc acc;
        r ← render_aux sc rest None;
        mret (py_str v ++ r)
      else render_aux sc rest (Some (acc ++ String ch ""))
  end.

Definition render_template (sc : scope) (s : string) : result string :=
  render_aux sc s None.

(* ------------------------------------------------------------------ *)
(** ** The function library: [RuleSetStandardLibrary.call_function] *)

(** Modelled from the spec: [substring(s, start, stop, reverse)].  A
    non-string input raises "Input must be a string"; bounds that are
    not integers or a [reverse] that is not a boolean are a type error;
    bounds out of range or a non-ASCII input give [None]. *)
Definition substring (s start stop rev : value) : result value :=
  match s, start, stop, rev with
  | VStr str, VInt st, VInt sp, VBool r =>
      let len := Z.of_nat (String.length str) in
      if (0 <=? st)%Z && (st <? sp)%Z && (sp <=? len)%Z
         && Str.forallb_str (fun ch => N.ltb (N_of_ascii ch) 128) str then
        let '(a, b) := if r then ((len - sp)%Z, (len - st)%Z) else (st, sp) in
        mret (VStr (String.substring (Z.to_nat a) (Z.to_nat (b - a)) str))
      else mret VNone
  | VStr _, _, _, _ => raise (type_error "substring")
  | _, _, _, _ => raise (EndpointResolutionError "Input must be a string")
  end.

(** Modelled from the spec: dispatch of a condition's [fn] to the
    library (the functions the specification lists, except [uriEncode]
    and [parseURL]); the arguments are already resolved against the
    scope. *)
Definition is_set (v : value) : bool :=
  match v with VNone => false | _ => true end.

Definition arity_error (fn : string) : error :=
  TypeError (fn ++ "() got the wrong number of arguments").

Definition call_lib (data : partitions_data) (fn : string) (args : list value) : result value :=
  if String.eqb fn "isSet" then
    match args with [v] => mret (VBool (is_set v)) | _ => raise (arity_error fn) end
  else if String.eqb fn "not" then
    match args with [v] => mret (VBool (negb (truthy v))) | _ => raise (arity_error fn) end
  else if String.eqb fn "stringEquals" then
    match args with
    | [VStr x; VStr y] => mret (VBool (String.eqb x y))
    | [_; _] => raise (EndpointResolutionError "Both values must be strings")
    | _ => raise (arity_error fn)
    end
  else if String.eqb fn "booleanEquals" then
    match args with
    | [VBool x; VBool y] => mret (VBool (Bool.eqb x y))
    | [_; _] => raise (EndpointResolutionError "Both arguments must be bools")
    | _ => raise (arity_error fn)
    end
  else if String.eqb fn "getAttr" then
    match args with
    | [v; VStr path] => mret (get_attr v path)
    | _ => raise (arity_error fn)
    end
  else if String.eqb fn "substring" then
    match args with [s; a; b; r] => substring s a b r | _ => raise (arity_error fn) end
  else if String.eqb fn "aws.parseArn" then
    match args with [v] => aws_parse_arn v | _ => raise (arity_error fn) end
  else if String.eqb fn "aws.partition" then
    match args with [v] => mret (aws_partition data v) | _ => raise (arity_error fn) end
  else if String.eqb fn "aws.isVirtualHostableS3Bucket" then
    match args with
    | [b; a] => aws_is_virtual_hostable_s3_bucket b a
    | _ => raise (arity_error fn)
    end
  else raise (EndpointResolutionError ("Unknown function: " ++ fn)).

(* ------------------------------------------------------------------ *)
(** ** Rule tree *)

(** An argument of a condition: a [{"ref": name}], a string literal
    (a template), a boolean or integer literal, or a nested function
    call.  A condition is a function call [{fn, argv, assign?}]. *)
Inductive arg : Type :=
| ARef (name : string)
| AStr (tmpl : string)
| ABool (b : bool)
| AInt (z : Z)
| AFn (c : condition)
with condition : Type :=
| Cond (fn : string) (argv : list arg) (assign : option string).

(** The endpoint of an [EndpointRule]: url template, properties (their
    strings are templates) and headers (each a list of arguments). *)
Record endpoint_template : Type := EndpointTemplate {
  et_url : string;
  et_properties : list (string * value);
  et_headers : list (string * list arg)
}.

(** The resolved endpoint, [RuleSetEndpoint(url, properties, headers)]. *)
Record endpoint : Type := Endpoint {
  url : string;
  properties : list (string * value);
  headers : list (string * list value)
}.

Inductive rule : Type :=
| EndpointRule (conditions : list condition) (ep : endpoint_template)
| ErrorRule (conditions : list condition) (err : string)
| TreeRule (conditions : list condition) (rules : list rule).

(** A computation that also threads the scope. *)
Definition scoped (T : Type) : Type := scope -> result (T * scope).

Definition assign_error (name : string) : error :=
  EndpointResolutionError
    ("Assignment " ++ name ++ " already exists in scoped variables and cannot be overwritten").

Section Evaluator.

Variable data : partitions_data.

(** Modelled from the spec: [resolve_value] and [call_function].  A
    condition resolves its arguments left to right (nested calls may
    bind variables), calls the library, and, when it has an [assign],
    binds the result, failing if the name is already in the scope. *)
Fixpoint resolve_value (a : arg) (sc : scope) {struct a} : result (value * scope) :=
  match a with
  | ARef name => mret (default VNone (sc !! name), sc)
  | AStr t => s ← render_template sc t; mret (VStr s, sc)
  | ABool b => mret (VBool b, sc)
  | AInt z => mret (VInt z, sc)
  | AFn c => call_function c sc
  end
with call_function (c : condition) (sc : scope) {struct c} : result (value * scope) :=
  match c with
  | Cond fn argv assign =>
      let fix resolve_args (l : list arg) (sc : scope) : result (list value * scope) :=
        match l with
        | [] => mret ([], sc)
        | a :: l' =>
            '(v, sc1) ← resolve_value a sc;
            '(vs, sc2) ← resolve_args l' sc1;
            mret (v :: vs, sc2)
        end in
      '(args, sc1) ← resolve_args argv sc;
      v ← call_lib data fn args;
      match assign with
      | None => mret (v, sc1)
      | Some name =>
          if bool_decide (is_Some (sc1 !! name)) then raise (assign_error name)
          else mret (v, <[name := v]> sc1)
      end
  end.

Definition resolve_args : list arg -> scoped (list value) :=
  fix go (l : list arg) (sc : scope) : result (list value * scope) :=
    match l with
    | [] => mret ([], sc)
    | a :: l' =>
        '(v, sc1) ← resolve_value a sc;
        '(vs, sc2) ← go l' sc1;
        mret (v :: vs, sc2)
    end.

(** A condition fails when its result is [False] or [None]. *)
Definition condition_holds (v : value) : bool :=
  match v with VNone | VBool false => false | _ => true end.

(** [evaluate_conditions]: left to right, stopping at the first failing
    condition; the scope is extended by the assignments. *)
Fixpoint evaluate_conditions (cs : list condition) (sc : scope) : result (bool * scope) :=
  match cs with
  | [] => mret (true, sc)
  | c :: cs' =>
      '(v, sc1) ← call_function c sc;
      if condition_holds v then evaluate_conditions cs' sc1 else mret (false, sc1)
  end.

End Evaluator.

Section Rules.

Variable data : partitions_data.

(** Strings inside the endpoint properties are templates. *)
Fixpoint render_value (sc : scope) (v : value) : result value :=
  match v with
  | VStr s => s' ← render_template sc s; mret (VStr s')
  | VList l =>
      let fix go (l : list value) : result (list value) :=
        match l with
        | [] => mret []
        | x :: l' => x' ← render_value sc x; r ← go l'; mret (x' :: r)
        end in
      l' ← go l; mret (VList l')
  | VDict kvs =>
      let fix go (kvs : list (string * value)) : result (list (string * value)) :=
        match kvs with
        | [] => mret []
        | (k, x) :: kvs' => x' ← render_value sc x; r ← go kvs'; mret ((k, x') :: r)
        end in
      kvs' ← go kvs; mret (VDict kvs')
  | _ => mret v
  end.

Fixpoint render_properties (sc : scope) (kvs : list (string * value)) : result (list (string * value)) :=
  match kvs with
  | [] => mret []
  | (k, x) :: kvs' => x' ← render_value sc x; r ← render_properties sc kvs'; mret ((k, x') :: r)
  end.

Fixpoint render_headers (sc : scope) (hs : list (string * list arg)) : result (list (string * list value)) :=
  match hs with
  | [] => mret []
  | (k, args) :: hs' =>
      '(vs, _) ← resolve_args data args sc;
      r ← render_headers sc hs';
      mret ((k, vs) :: r)
  end.

(** Step 3 of the evaluator: render url, properties and headers. *)
Definition render_endpoint (sc : scope) (et : endpoint_template) : result endpoint :=
  u ← render_template sc (et_url et);
  ps ← render_properties sc (et_properties et);
  hs ← render_headers sc (et_headers et);
  mret (Endpoint u ps hs).

(** Modelled from the spec: [EndpointRule.evaluate], [ErrorRule.evaluate]
    and [TreeRule.evaluate].  [None] is "no match"; a tree rule tries its
    sub-rules in order, each on a copy of the scope left by its own
    conditions, and the first match wins. *)
Fixpoint eval_rule (r : rule) (sc : scope) : result (option endpoint) :=
  match r with
  | EndpointRule cs et =>
      '(ok, sc1) ← evaluate_conditions data cs sc;
      if (ok : bool) then (e ← render_endpoint sc1 et; mret (Some e)) else mret None
  | ErrorRule cs msg =>
      '(ok, sc1) ← evaluate_conditions data cs sc;
      if (ok : bool) then (m ← render_template sc1 msg; raise (EndpointResolutionError m))
      else mret None
  | TreeRule cs rs =>
      '(ok, sc1) ← evaluate_conditions data cs sc;
      if (ok : bool) then
        (fix first_match (rs : list rule) : result (option endpoint) :=
           match rs with
           | [] => mret None
           | r :: rs' =>
               o ← eval_rule r sc1;
               match o with Some e => mret (Some e) | None => first_match rs' end
           end) rs
      else mret None
  end.

(** The same search at the top level of a rule set. *)
Fixpoint first_match (rs : list rule) (sc : scope) : result (option endpoint) :=
  match rs with
  | [] => mret None
  | r :: rs' =>
      o ← eval_rule r sc;
      match o with Some e => mret (Some e) | None => first_match rs' sc end
  end.

End Rules.

(* ------------------------------------------------------------------ *)
(** ** Parameters and rule sets *)

Inductive ptype : Type := PString | PBoolean | PStringArray.

Record parameter : Type := Parameter_ {
  param_name : string;
  param_type : ptype;
  param_builtin : option string;
  param_default : option value;
  param_required : bool;
  param_deprecated : option string
}.

Record ruleset : Type := RuleSet {
  version : string;
  parameters : list parameter;
  rules : list rule
}.

Definition type_ok (t : ptype) (v : value) : bool :=
  match t, v with
  | PString, VStr _ => true
  | PBoolean, VBool _ => true
  | PStringArray, VList l => forallb (fun x => match x with VStr _ => true | _ => false end) l
  | _, _ => false
  end.

(** Modelled from the spec: [Parameter.validate_input]. *)
Definition validate_input (p : parameter) (v : value) : result unit :=
  if type_ok (param_type p) v then mret tt
  else raise (EndpointResolutionError ("Value (" ++ param_name p ++ ") is the wrong type")).

(** Modelled from the spec: [RuleSet.process_input_parameters]: the
    value of each declared parameter is looked up ([None] when absent);
    a set value is type-checked; an unset one takes the default, if
    any; a required parameter with neither fails. *)
Fixpoint process_input_parameters (ps : list parameter) (input : scope) : result scope :=
  match ps with
  | [] => mret input
  | p :: ps' =>
      sc ← (let v := default VNone (input !! param_name p) in
            if is_set v then (_ ← validate_input p v; mret input)
            else
              match param_default p with
              | Some d => mret (<[param_name p := d]> input)
              | None =>
                  if param_required p then
                    raise (EndpointResolutionError
                             ("Cannot find value for required parameter " ++ param_name p))
                  else mret input
              end);
      process_input_parameters ps' sc
  end.

(** [RuleSet.evaluate]: the rules in declared order on the validated
    parameters; [None] when no rule matches. *)
Definition ruleset_evaluate (data : partitions_data) (rs : ruleset) (input : scope)
  : result (option endpoint) :=
  sc ← process_input_parameters (parameters rs) input;
  first_match data (rules rs) sc.

(** [EndpointProvider.resolve_endpoint] without its cache. *)
Definition resolve_endpoint_uncached (data : partitions_data) (rs : ruleset) (input : scope)
  : result endpoint :=
  o ← ruleset_evaluate data rs input;
  match o with
  | Some e => mret e
  | None => raise (EndpointResolutionError "No endpoint found for parameters")
  end.

(** Equality of values, decided structurally: the cache compares
    parameter snapshots, which hold values. *)
Fixpoint value_eqb (v w : value) : bool :=
  match v, w with
  | VNone, VNone => true
  | VStr a, VStr b => String.eqb a b
  | VBool a, VBool b => Bool.eqb a b
  | VInt a, VInt b => Z.eqb a b
  | VList l, VList m =>
      (fix go (l m : list value) : bool :=
         match l, m with
         | [], [] => true
         | x :: l', y :: m' => value_eqb x y && go l' m'
         | _, _ => false
         end) l m
  | VDict l, VDict m =>
      (fix go (l m : list (string * value)) : bool :=
         match l, m with
         | [], [] => true
         | (s, x) :: l', (t, y) :: m' => String.eqb s t && value_eqb x y && go l' m'
         | _, _ => false
         end) l m
  | _, _ => false
  end.

Lemma value_eqb_eq : forall v w, value_eqb v w = true <-> v = w.
Proof.
  fix IH 1.
  intros [|s|b|z|l|kvs] [|s'|b'|z'|l'|kvs']; simpl; try (split; [discriminate|congruence]).
  - tauto.
  - rewrite String.eqb_eq; split; congruence.
  - rewrite Bool.eqb_true_iff; split; congruence.
  - rewrite Z.eqb_eq; split; congruence.
  - revert l l'; fix go 1; intros [|x l] [|y l']; simpl; try (split; [discriminate|congruence]).
    + tauto.
    + rewrite andb_true_iff, IH, go; split; [intros [-> [=->]]; reflexivity|intros [=-> ->]; auto].
  - revert kvs kvs'; fix go 1; intros [|[s x] l] [|[t y] l']; simpl; try (split; [discriminate|congruence]).
    + tauto.
    + rewrite !andb_true_iff, String.eqb_eq, IH, go.
      split; [intros [[-> ->] [=->]]; reflexivity|intros [=-> -> ->]; auto].
Qed.

#[global] Instance value_eq_dec : EqDecision value :=
  fun v w => match value_eqb v w as b return value_eqb v w = b -> Decision (v = w) with
             | true => fun H => left (proj1 (value_eqb_eq v w) H)
             | false => fun H => right (fun E => Bool.diff_false_true
                                  (eq_trans (eq_sym H) (proj2 (value_eqb_eq v w) E)))
             end eq_refl.

(* ------------------------------------------------------------------ *)
(** ** The provider cache *)

Section Cache.

Context {K R : Type} `{EqDecision K}.

(** The evaluation the cache wraps ([RuleSet.evaluate] plus the
    "no endpoint" check); [K] is the merged parameter snapshot. *)
Variable evaluate : K -> result R.

(** Modelled from the spec: the cache of
    [EndpointProvider.resolve_endpoint], a bounded least-recently-used
    map from snapshot to endpoint, most recent first.  [evaluations]
    records every invocation of the evaluator, in order. *)
Record provider : Type := Provider {
  cache : list (K * R);
  capacity : nat;
  evaluations : list K
}.

Definition new_provider (cap : nat) : provider := Provider [] cap [].

Fixpoint cache_lookup (k : K) (c : list (K * R)) : option R :=
  match c with
  | [] => None
  | (k', r) :: c' => if decide (k = k') then Some r else cache_lookup k c'
  end.

Definition cache_remove (k : K) (c : list (K * R)) : list (K * R) :=
  List.filter (fun kr => negb (bool_decide (fst kr = k))) c.

(** A hit moves the entry to the front and skips the evaluator; a miss
    evaluates, and a successful result is stored at the front, the least
    recently used entry being dropped beyond [capacity].  Errors are not
    cached. *)
Definition resolve_endpoint (p : provider) (k : K) : result R * provider :=
  match cache_lookup k (cache p) with
  | Some r => (inr r, Provider ((k, r) :: cache_remove k (cache p)) (capacity p) (evaluations p))
  | None =>
      let evs := (evaluations p ++ [k])%list in
      match evaluate k with
      | inr r => (inr r, Provider (firstn (capacity p) ((k, r) :: cache p)) (capacity p) evs)
      | inl e => (inl e, Provider (cache p) (capacity p) evs)
      end
  end.

(** A sequence of calls on one provider. *)
Fixpoint resolve_all (p : provider) (ks : list K) : list (result R) * provider :=
  match ks with
  | [] => ([], p)
  | k :: ks' =>
      let '(r, p1) := resolve_endpoint p k in
      let '(rs, p2) := resolve_all p1 ks' in
      (r :: rs, p2)
  end.

End Cache.

Arguments Provider {K R} cache capacity evaluations.

(* ------------------------------------------------------------------ *)
(** ** Builtin resolution *)

Definition AWS_REGION : string := "AWS::Region".
Definition AWS_ACCOUNT_ID : string := "AWS::Auth::AccountId".
Definition AWS_CREDENTIAL_SCOPE : string := "AWS::Auth::CredentialScope".

(** [botocore.credentials.Credentials], as far as endpoint resolution
    reads it. *)
Record credentials : Type := Credentials {
  access_key : string;
  secret_key : string;
  token : option string;
  account_id : option string;
  cred_scope : option string
}.

Inductive account_id_endpoint_mode : Type := Required | Preferred | Disabled.

(** The setting is case-sensitive; any other value is a configuration
    error. *)
Definition parse_account_id_endpoint_mode (s : string) : result account_id_endpoint_mode :=
  if String.eqb s "required" then mret Required
  else if String.eqb s "preferred" then mret Preferred
  else if String.eqb s "disabled" then mret Disabled
  else raise (InvalidConfigError ("Invalid value for account_id_endpoint_mode: " ++ s)).

Record credential_builtin_resolver : Type := CredentialBuiltinResolver_ {
  cbr_credentials : option credentials;
  cbr_mode : account_id_endpoint_mode
}.

(** [CredentialBuiltinResolver(credentials, account_id_endpoint_mode)]. *)
Definition CredentialBuiltinResolver (creds : option credentials) (mode : string)
  : result credential_builtin_resolver :=
  m ← parse_account_id_endpoint_mode mode;
  mret (CredentialBuiltinResolver_ creds m).

(** Modelled from the spec: the account-id builtin, and from
    [test_account_id_builtin], which pins the case without credentials:
    [disabled] gives no account id; without credentials there is none
    either (an explicit id included); otherwise an explicitly supplied
    id wins, then the credentials' id; with neither, [required] raises
    [AccountIdNotFound] and [preferred] gives none. *)
Definition resolve_account_id (r : credential_builtin_resolver) (builtins : gmap string value)
  : result value :=
  match cbr_mode r with
  | Disabled => mret VNone
  | mode =>
      match cbr_credentials r with
      | None => mret VNone
      | Some c =>
          let explicit := default VNone (builtins !! AWS_ACCOUNT_ID) in
          if is_set explicit then mret explicit
          else match account_id c with
               | Some a => mret (VStr a)
               | None =>
                   match mode with
                   | Required => raise AccountIdNotFound
                   | _ => mret VNone
                   end
               end
      end
  end.

(** Modelled from the spec: the credential-scope builtin.  An explicitly
    supplied scope wins, then the credentials' scope; none otherwise. *)
Definition resolve_credential_scope (r : credential_builtin_resolver) (builtins : gmap string value)
  : value :=
  let explicit := default VNone (builtins !! AWS_CREDENTIAL_SCOPE) in
  if is_set explicit then explicit
  else match cbr_credentials r with
       | Some c => match cred_scope c with Some s => VStr s | None => VNone end
       | None => VNone
       end.

(** [EndpointBuiltinResolver.resolve]: the credential-derived builtins,
    the others from the builtins table. *)
Definition resolve_builtin (r : credential_builtin_resolver) (builtins : gmap string value)
  (name : string) : result value :=
  if String.eqb name AWS_ACCOUNT_ID then resolve_account_id r builtins
  else if String.eqb name AWS_CREDENTIAL_SCOPE then mret (resolve_credential_scope r builtins)
  else mret (default VNone (builtins !! name)).

(** Modelled from the spec: [EndpointRulesetResolver._get_provider_params].
    Per declared parameter: the operation-context value if set, else
    the builtin it is bound to; only set values are passed on. *)
Fixpoint provider_params (r : credential_builtin_resolver) (builtins context : gmap string value)
  (ps : list parameter) (acc : scope) : result scope :=
  match ps with
  | [] => mret acc
  | p :: ps' =>
      v ← match context !! param_name p with
          | Some v => if is_set v then mret v
                      else match param_builtin p with
                           | Some b => resolve_builtin r builtins b
                           | None => mret VNone
                           end
          | None =>
              match param_builtin p with
              | Some b => resolve_builtin r builtins b
              | None => mret VNone
              end
          end;
      provider_params r builtins context ps' (if is_set v then <[param_name p := v]> acc else acc)
  end.

(** [EndpointRulesetResolver.construct_endpoint] (the provider's cache
    does not change results, see [resolve_endpoint]). *)
Definition construct_endpoint (data : partitions_data) (rs : ruleset)
  (r : credential_builtin_resolver) (builtins context : gmap string value) : result endpoint :=
  params ← provider_params r builtins context (parameters rs) ∅;
  resolve_endpoint_uncached data rs params.

(** The test rule sets [aws-account-id.json] and
    [aws-credential-scope.json] (tests/unit/data is not part of the
    slice), as the expected URLs of the tests describe them: the builtin
    value, when set, becomes the first host label. *)
Definition builtin_host_ruleset (pname builtin : string) : ruleset :=
  RuleSet "1.0"
    [Parameter_ "Region" PString (Some AWS_REGION) None false None;
     Parameter_ pname PString (Some builtin) None false None]
    [EndpointRule [Cond "isSet" [ARef pname] None]
       (EndpointTemplate ("https://{" ++ pname ++ "}.amazonaws.com") [] []);
     EndpointRule [] (EndpointTemplate "https://amazonaws.com" [] [])].

Definition account_id_ruleset : ruleset := builtin_host_ruleset "AccountId" AWS_ACCOUNT_ID.
Definition credential_scope_ruleset : ruleset :=
  builtin_host_ruleset "CredentialScope" AWS_CREDENTIAL_SCOPE.

(* ------------------------------------------------------------------ *)
(** ** Auth scheme -> signing context *)

(** An auth-scheme descriptor, a dict such as
    [{"name": "sigv4", "signingName": "s3", "signingRegion": "..."}]. *)
Abbreviation auth_scheme := (list (string * value)).

Definition opt_entry (k : string) (v : option value) : list (string * value) :=
  match v with Some x => [(k, x)] | None => [] end.

(** [{region: signingRegion, signing_name: signingName}] plus
    [disableDoubleEncoding] when present; other keys are dropped. *)
Definition signing_context (s : auth_scheme) : list (string * value) :=
  (opt_entry "region" (dict_get "signingRegion" s)
  ++ opt_entry "signing_name" (dict_get "signingName" s)
  ++ opt_entry "disableDoubleEncoding" (dict_get "disableDoubleEncoding" s))%list.

Definition signing_context_v4a (s : auth_scheme) : list (string * value) :=
  ("region", match dict_get "signingRegionSet" s with
             | Some (VList (x :: _)) => x
             | _ => VStr "*"
             end)
  :: opt_entry "signing_name" (dict_get "signingName" s).

Definition scheme_name (s : auth_scheme) : string :=
  match dict_get "name" s with Some (VStr n) => n | _ => "" end.

(** The auth type and signing context of one candidate, when it is
    usable: [sigv4] is [v4]; [sigv4a] is [v4a] when the acceleration
    capability ([HAS_CRT]) is there; any other name is usable when the
    alias table [AUTH_TYPE_MAPS] has it (the test
    [test_auth_schemes_conversion_first_authtype_unknown] selects ['bar']
    from [{'bar': None}], so the presence of the name decides). *)
Definition usable_auth_type (has_crt : bool) (auth_type_maps : list (string * value))
  (s : auth_scheme) : option (string * list (string * value)) :=
  let name := scheme_name s in
  if String.eqb name "sigv4" then Some ("v4", signing_context s)
  else if String.eqb name "sigv4a" then
    if has_crt then Some ("v4a", signing_context_v4a s) else None
  else if existsb (fun kv => String.eqb (fst kv) name) auth_type_maps then
    Some (name, signing_context s)
  else None.

(** The first usable candidate, in order. *)
Fixpoint select_auth_scheme (has_crt : bool) (auth_type_maps : list (string * value))
  (schemes : list auth_scheme) : option (string * list (string * value)) :=
  match schemes with
  | [] => None
  | s :: rest =>
      match usable_auth_type has_crt auth_type_maps s with
      | Some r => Some r
      | None => select_auth_scheme has_crt auth_type_maps rest
      end
  end.

(** Modelled from the spec: [auth_schemes_to_signing_ctx].  With no
    usable candidate, the failure is a missing-dependency error when a
    [sigv4a] candidate would have been usable with the acceleration
    capability, and an unknown-signature-version error naming the
    candidates otherwise. *)
Definition auth_schemes_to_signing_ctx (has_crt : bool) (auth_type_maps : list (string * value))
  (schemes : list auth_scheme) : result (string * list (string * value)) :=
  match select_auth_scheme has_crt auth_type_maps schemes with
  | Some r => mret r
  | None =>
      if negb has_crt && existsb (fun s => String.eqb (scheme_name s) "sigv4a") schemes then
        raise (MissingDependencyException "This operation requires an additional dependency.")
      else raise (UnknownSignatureVersionError (join ", " (map scheme_name schemes)))
  end.

(** A one-parameter rule set for the cache tests: every region string
    [r] resolves to [https://r.amazonaws.com]. *)
Definition region_ruleset : ruleset :=
  RuleSet "1.0"
    [Parameter_ "Region" PString None None true None]
    [EndpointRule [] (EndpointTemplate "https://{Region}.amazonaws.com" [] [])].

(** The merged parameter snapshot of [resolve_endpoint(Region=r)]. *)
Definition region_snapshot (r : string) : scope := <["Region" := VStr r]> ∅.

(** The evaluator wrapped by the provider of [region_ruleset]. *)
Definition region_evaluate : scope -> result endpoint :=
  resolve_endpoint_uncached partitions_json region_ruleset.

(** The test condition that assigns [bucketArn]. *)
Definition bucket_arn_condition : condition :=
  Cond "aws.parseArn" [AStr "{Bucket}"] (Some "bucketArn").

(** A candidate the selection passes over: not [sigv4], not [sigv4a],
    and not in the alias table. *)
Definition skipped_scheme (auth_type_maps : list (string * value)) (s : auth_scheme) : Prop :=
  scheme_name s <> "sigv4" /\ scheme_name s <> "sigv4a" /\
  existsb (fun kv => String.eqb (fst kv) (scheme_name s)) auth_type_maps = false.

Definition sigv4a_scheme : auth_scheme :=
  [("name", VStr "sigv4a"); ("signingName", VStr "s3"); ("signingRegionSet", VList [VStr "*"])].

Definition missing_crt_message : string := "This operation requires an additional dependency.".

(** The region builtin is absent or a string, as the [Region] parameter
    requires. *)
Definition region_ok (b : gmap string value) : Prop :=
  match default VNone (b !! AWS_REGION) with VNone | VStr _ => True | _ => False end.

(** The fixtures of [test_account_id_builtin] and
    [test_credential_scope_builtin]. *)
Definition CREDENTIALS : credentials :=
  Credentials "access_key" "secret_key" (Some "token") (Some "1234567890") None.
Definition CREDENTIALS_WITH_SCOPE : credentials :=
  Credentials "access_key" "secret_key" (Some "token") (Some "1234567890") (Some "us-west-2").
Definition BUILTINS_WITH_UNRESOLVED_ACCOUNT_ID : gmap string value :=
  <[AWS_REGION := VStr "us-west-2"]> (<[AWS_ACCOUNT_ID := VNone]> ∅).
Definition BUILTINS_WITH_RESOLVED_ACCOUNT_ID : gmap string value :=
  <[AWS_REGION := VStr "us-west-2"]> (<[AWS_ACCOUNT_ID := VStr "0987654321"]> ∅).
Definition BUILTINS_WITH_UNRESOLVED_CREDENTIAL_SCOPE : gmap string value :=
  <[AWS_REGION := VStr "us-west-2"]> (<[AWS_CREDENTIAL_SCOPE := VNone]> ∅).
Definition BUILTINS_WITH_RESOLVED_CREDENTIAL_SCOPE : gmap string value :=
  <[AWS_REGION := VStr "us-east-1"]> (<[AWS_CREDENTIAL_SCOPE := VStr "us-east-1"]> ∅).

(** [create_ruleset_resolver(...).construct_endpoint(...)] with empty
    operation context. *)
Definition create_and_construct (rs : ruleset) (builtins : gmap string value)
  (creds : option credentials) (mode : string) : result endpoint :=
  r ← CredentialBuiltinResolver creds mode;
  construct_endpoint partitions_json rs r builtins ∅.

(** The conditions guarding a rule. *)
Definition rule_conditions (r : rule) : list condition :=
  match r with
  | EndpointRule cs _ | ErrorRule cs _ | TreeRule cs _ => cs
  end.

(** A cache agrees with an evaluator when each stored result is what the
    evaluator gives for its snapshot. *)
Definition cache_ok {K R : Type} (evaluate : K -> result R) (c : list (K * R)) : Prop :=
  Forall (fun kr => evaluate (fst kr) = inr (snd kr)) c.

(* ================================================================== *)
(** * Properties *)

(** ** Function library *)

Lemma split_max_length (p : ascii -> bool) (n : nat) (s : string) :
  (length (Str.split_max p n s) <= S n)%nat.
Proof.
  revert n; induction s as [|ch rest IH]; intros n; simpl.
  - lia.
  - destruct n as [|n']; simpl; [lia|].
    destruct (p ch); simpl.
    + specialize (IH n'); lia.
    + specialize (IH (S n')).
      destruct (Str.split_max p (S n') rest) eqn:E; simpl in *; lia.
Qed.

(** C6: [aws.parseArn] returns [None] without the ["arn:"] prefix or with
    fewer than six [':']-separated fields (the split never gives more
    than six), and otherwise the five named fields with the resource
    split on ['/'] or [':']; the three ARNs of the tests parse as
    expected and the malformed one gives [None]. *)
Theorem aws_parse_arn_fields (s : string) :
  (Str.startswith "arn:" s = false -> aws_parse_arn (VStr s) = inr VNone) /\
  (length (Str.split_max (Str.is_char ":") 5 s) < 6 -> aws_parse_arn (VStr s) = inr VNone)%nat /\
  (length (Str.split_max (Str.is_char ":") 5 s) <= 6)%nat /\
  (forall x partition service region account resource,
     Str.startswith "arn:" s = true ->
     Str.split_max (Str.is_char ":") 5 s = [x; partition; service; region; account; resource] ->
     aws_parse_arn (VStr s) =
       inr (VDict [("partition", VStr partition); ("service", VStr service);
                   ("region", VStr region); ("accountId", VStr account);
                   ("resourceId", VList (map VStr (Str.split_by
                      (fun ch => Str.is_char "/" ch || Str.is_char ":" ch) resource)))])) /\
  aws_parse_arn (VStr "arn:aws:s3:::myBucket/key") =
    inr (VDict [("partition", VStr "aws"); ("service", VStr "s3"); ("region", VStr "");
                ("accountId", VStr ""); ("resourceId", VList [VStr "myBucket"; VStr "key"])]) /\
  aws_parse_arn (VStr "arn:aws:kinesis:us-east-1:1234567890:stream/mystream:foo") =
    inr (VDict [("partition", VStr "aws"); ("service", VStr "kinesis");
                ("region", VStr "us-east-1"); ("accountId", VStr "1234567890");
                ("resourceId", VList [VStr "stream"; VStr "mystream"; VStr "foo"])]) /\
  aws_parse_arn (VStr "arn:aws:this-is-not-an-arn:foo") = inr VNone.
Proof.
  pose proof (split_max_length (Str.is_char ":") 5 s) as Hlen.
  split; [|split; [|split; [exact Hlen|split; [|split; [reflexivity|split; reflexivity]]]]].
  - intros H; simpl; rewrite H; reflexivity.
  - intros H; simpl.
    destruct (Str.startswith "arn:" s); [|reflexivity].
    destruct (Str.split_max (Str.is_char ":") 5 s) as [|a0 [|a1 [|a2 [|a3 [|a4 [|a5 [|a6 l]]]]]]];
      simpl in H; try reflexivity; lia.
  - intros x partition service region account resource Hpre Hsplit.
    simpl; rewrite Hpre, Hsplit; reflexivity.
Qed.

Lemma find_partition_none (region : string) (ps : list partition) :
  forallb (fun p => negb (partition_matches region p)) ps = true ->
  List.find (partition_matches region) ps = None.
Proof.
  induction ps as [|p ps IH]; simpl; [done|].
  intros H; apply andb_true_iff in H as [Hp Hps].
  destruct (partition_matches region p); [discriminate|auto].
Qed.

(** C7: with no region, or a region that neither the region list nor the
    region expression of any partition matches, [aws.partition] returns
    the designated default partition; in the bundled table that is
    [aws], also for ["invalid-region-42"]; a region is matched in table
    order, the first partition whose region list or region expression
    accepts it being returned. *)
Theorem aws_partition_default (data : partitions_data) (region : string) :
  (forall pre p post, partitions data = (pre ++ p :: post)%list ->
     forallb (fun q => negb (partition_matches region q)) pre = true ->
     partition_matches region p = true ->
     aws_partition data (VStr region) = partition_dict p) /\
  aws_partition data VNone = partition_dict (default_partition data) /\
  (forallb (fun p => negb (partition_matches region p)) (partitions data) = true ->
   aws_partition data (VStr region) = partition_dict (default_partition data)) /\
  p_name (default_partition partitions_json) = "aws" /\
  aws_partition partitions_json VNone = partition_dict aws_std /\
  aws_partition partitions_json (VStr "invalid-region-42") = partition_dict aws_std.
Proof.
  split.
  { intros pre p post Hd Hpre Hp; simpl; rewrite Hd; clear Hd.
    induction pre as [|q pre IH]; simpl in *; [rewrite Hp; reflexivity|].
    apply andb_true_iff in Hpre as [Hq Hpre]; apply negb_true_iff in Hq.
    rewrite Hq; exact (IH Hpre). }
  split; [reflexivity|].
  split; [|split; [reflexivity|split; reflexivity]].
  intros H; simpl; rewrite (find_partition_none region (partitions data) H); reflexivity.
Qed.

Ltac split_andb :=
  repeat match goal with
         | H : (_ && _)%bool = true |- _ => apply andb_true_iff in H as [? ?]
         end.

(** A DNS host label, as a proposition. *)
Lemma is_valid_host_label_iff (l : string) :
  is_valid_host_label l = true <->
  (1 <= String.length l <= 63)%nat /\ Str.forallb_str label_char l = true /\
  Str.first_char l <> Some "-"%char /\ Str.last_char l <> Some "-"%char.
Proof.
  unfold is_valid_host_label; rewrite !andb_true_iff, !negb_true_iff, !bool_decide_eq_false,
    !Nat.leb_le; tauto.
Qed.

Lemma forallb_host_labels (ls : list string) :
  forallb is_valid_host_label ls = true <->
  Forall (fun l => (1 <= String.length l <= 63)%nat /\ Str.forallb_str label_char l = true /\
                   Str.first_char l <> Some "-"%char /\ Str.last_char l <> Some "-"%char) ls.
Proof.
  rewrite forallb_forall, List.Forall_forall.
  split; intros H l Hl; apply is_valid_host_label_iff; auto.
Qed.

(** C8 (counterexample): the DNS label rules do not apply to the whole
    name: with subdomains allowed, ['a..b'] and ['ab-.cd'] have 3 to 63
    characters from lowercase letters, digits, ['.'] and ['-'], do not
    start or end with ['-'] and are not IPv4 addresses, yet they are
    rejected (an empty label; a label ending in ['-']); and a name of
    81 characters made of two valid labels is accepted. *)
Lemma virtual_hostable_whole_name_rules_fail :
  let whole_name_ok b :=
    ((3 <=? String.length b)%nat && (String.length b <=? 63)%nat
     && Str.forallb_str (fun ch => Str.is_lower ch || Str.is_digit ch
                                   || Str.is_char "." ch || Str.is_char "-" ch) b
     && negb (bool_decide (Str.first_char b = Some "-"%char))
     && negb (bool_decide (Str.last_char b = Some "-"%char))
     && negb (is_ipv4_formatted b))%bool in
  whole_name_ok "a..b" = true /\
  aws_is_virtual_hostable_s3_bucket (VStr "a..b") (VBool true) = inr (VBool false) /\
  whole_name_ok "ab-.cd" = true /\
  aws_is_virtual_hostable_s3_bucket (VStr "ab-.cd") (VBool true) = inr (VBool false) /\
  String.length "aaaaaaaaaaaaaaaaaaaaaaaaaaaaaaaaaaaaaaaa.bbbbbbbbbbbbbbbbbbbbbbbbbbbbbbbbbbbbbbbb" = 81%nat /\
  aws_is_virtual_hostable_s3_bucket (VStr "aaaaaaaaaaaaaaaaaaaaaaaaaaaaaaaaaaaaaaaa.bbbbbbbbbbbbbbbbbbbbbbbbbbbbbbbbbbbbbbbb") (VBool true) = inr (VBool true).
Proof. intros whole_name_ok; repeat split; vm_compute; reflexivity. Qed.

(** C8 (amended): for a string bucket and a boolean flag,
    [aws.isVirtualHostableS3Bucket] never fails, and it is true exactly
    when the name has at least 3 characters, no uppercase letter, is not
    formatted as an IPv4 address, and every label (the ['.']-separated
    parts when subdomains are allowed, the whole name, which then has no
    ['.'], when they are not) has 1 to 63 characters from letters,
    digits and ['-'] and neither starts nor ends with ['-']; the test
    names give the expected answers. *)
Theorem aws_is_virtual_hostable_s3_bucket_iff (b : string) (allow : bool) :
  (exists x, aws_is_virtual_hostable_s3_bucket (VStr b) (VBool allow) = inr (VBool x)) /\
  (aws_is_virtual_hostable_s3_bucket (VStr b) (VBool allow) = inr (VBool true) <->
   (3 <= String.length b)%nat /\
   Str.existsb_str Str.is_upper b = false /\
   is_ipv4_formatted b = false /\
   (allow = false -> Str.existsb_str (Str.is_char ".") b = false) /\
   Forall (fun l => (1 <= String.length l <= 63)%nat /\ Str.forallb_str label_char l = true /\
                    Str.first_char l <> Some "-"%char /\ Str.last_char l <> Some "-"%char)
     (if allow then Str.split_by (Str.is_char ".") b else [b])) /\
  aws_is_virtual_hostable_s3_bucket (VStr "mybucket") (VBool true) = inr (VBool true) /\
  aws_is_virtual_hostable_s3_bucket (VStr "ab") (VBool true) = inr (VBool false) /\
  aws_is_virtual_hostable_s3_bucket (VStr "a.b") (VBool true) = inr (VBool true) /\
  aws_is_virtual_hostable_s3_bucket (VStr "my.great.bucket.aws.com") (VBool true) = inr (VBool true) /\
  aws_is_virtual_hostable_s3_bucket (VStr "mY.GREAT.bucket.aws.com") (VBool true) = inr (VBool false) /\
  aws_is_virtual_hostable_s3_bucket (VStr "192.168.1.1") (VBool true) = inr (VBool false).
Proof.
  split; [|split; [|repeat split; vm_compute; reflexivity]].
  { unfold aws_is_virtual_hostable_s3_bucket.
    destruct (_ || _ || _)%bool; [|destruct allow]; eexists; reflexivity. }
  unfold aws_is_virtual_hostable_s3_bucket.
  destruct (String.length b <? 3)%nat eqn:E3; simpl.
  { split; [discriminate|intros [Hl _]; apply Nat.ltb_lt in E3; lia]. }
  apply Nat.ltb_ge in E3.
  destruct (Str.existsb_str Str.is_upper b) eqn:Eu; simpl.
  { split; [discriminate|intros (_ & H & _); discriminate]. }
  destruct (is_ipv4_formatted b) eqn:Ei; simpl.
  { split; [discriminate|intros (_ & _ & H & _); discriminate]. }
  destruct allow.
  - rewrite <- forallb_host_labels; split.
    + intros [= H]; repeat split; auto; discriminate.
    + intros (_ & _ & _ & _ & H); rewrite H; reflexivity.
  - split.
    + intros [= H]; apply andb_true_iff in H as [Hd Hv]; apply negb_true_iff in Hd.
      repeat split; auto. constructor; [apply is_valid_host_label_iff; exact Hv|constructor].
    + intros (_ & _ & _ & Hd & Hv); rewrite (Hd eq_refl).
      apply List.Forall_forall with (x := b) in Hv; [|left; reflexivity].
      apply is_valid_host_label_iff in Hv; rewrite Hv; reflexivity.
Qed.

(** C10 (counterexample): the 63-character bound is not on the whole
    name: with subdomains allowed, a name of 81 characters made of two
    labels of 40 is accepted. *)
Lemma virtual_hostable_long_dotted_name :
  String.length "aaaaaaaaaaaaaaaaaaaaaaaaaaaaaaaaaaaaaaaa.bbbbbbbbbbbbbbbbbbbbbbbbbbbbbbbbbbbbbbbb" = 81%nat /\
  aws_is_virtual_hostable_s3_bucket (VStr "aaaaaaaaaaaaaaaaaaaaaaaaaaaaaaaaaaaaaaaa.bbbbbbbbbbbbbbbbbbbbbbbbbbbbbbbbbbbbbbbb") (VBool true) = inr (VBool true).
Proof. split; vm_compute; reflexivity. Qed.

(** C10 (amended): with [allowSubdomains] true, the minimum length 3 is
    on the whole name and the maximum 63 on each ['.']-separated label:
    every accepted name has at least 3 characters and labels of 1 to 63
    characters; ['a.b'] (labels of length 1) is accepted, ['ab'] is
    rejected, and a name with a label of 64 characters is rejected. *)
Theorem virtual_hostable_length_whole_name (b : string) :
  (aws_is_virtual_hostable_s3_bucket (VStr b) (VBool true) = inr (VBool true) ->
   (3 <= String.length b)%nat /\
   Forall (fun l => (1 <= String.length l <= 63)%nat) (Str.split_by (Str.is_char ".") b)) /\
  aws_is_virtual_hostable_s3_bucket (VStr "a.b") (VBool true) = inr (VBool true) /\
  aws_is_virtual_hostable_s3_bucket (VStr "ab") (VBool true) = inr (VBool false) /\
  aws_is_virtual_hostable_s3_bucket (VStr "cccccccccccccccccccccccccccccccccccccccccccccccccccccccccccccccc.b") (VBool true) = inr (VBool false).
Proof.
  split; [|repeat split; vm_compute; reflexivity].
  unfold aws_is_virtual_hostable_s3_bucket.
  destruct (String.length b <? 3)%nat eqn:E3; simpl; [discriminate|].
  apply Nat.ltb_ge in E3.
  destruct (Str.existsb_str Str.is_upper b || is_ipv4_formatted b)%bool; [discriminate|].
  intros [= H]; split; [exact E3|].
  apply forallb_host_labels in H.
  eapply List.Forall_impl; [|exact H]; intros l (Hl & _); exact Hl.
Qed.

(** ** Scoped variables *)

Lemma call_function_unfold (data : partitions_data) (fn : string) (argv : list arg)
  (assign : option string) (sc : scope) :
  call_function data (Cond fn argv assign) sc =
  ('(args, sc1) ← resolve_args data argv sc;
   v ← call_lib data fn args;
   match assign with
   | None => mret (v, sc1)
   | Some name =>
       if bool_decide (is_Some (sc1 !! name)) then raise (assign_error name)
       else mret (v, <[name := v]> sc1)
   end).
Proof. reflexivity. Qed.

Lemma resolve_args_cons (data : partitions_data) (a : arg) (l : list arg) (sc : scope) :
  resolve_args data (a :: l) sc =
  ('(v, sc1) ← resolve_value data a sc;
   '(vs, sc2) ← resolve_args data l sc1;
   mret (v :: vs, sc2)).
Proof. reflexivity. Qed.

(** Resolving an argument or calling a condition only adds bindings. *)
Lemma resolve_value_mono (data : partitions_data) (a : arg) :
  forall (sc : scope) v sc', resolve_value data a sc = inr (v, sc') -> sc ⊆ sc'
with call_function_mono (data : partitions_data) (c : condition) :
  forall (sc : scope) v sc', call_function data c sc = inr (v, sc') -> sc ⊆ sc'.
Proof.
  - destruct a as [name|t|b|z|c]; intros sc v sc' H; simpl in H.
    + injection H as _ <-; reflexivity.
    + destruct (render_template sc t); simpl in H; [discriminate|].
      injection H as _ <-; reflexivity.
    + injection H as _ <-; reflexivity.
    + injection H as _ <-; reflexivity.
    + exact (call_function_mono data c sc v sc' H).
  - destruct c as [fn argv assign]; intros sc v sc' H.
    rewrite call_function_unfold in H.
    assert (Hargs : forall (l : list arg) (sc0 : scope) vs sc1,
               resolve_args data l sc0 = inr (vs, sc1) -> sc0 ⊆ sc1).
    { clear H. fix go 1. intros [|a l] sc0 vs sc1 Hl.
      - injection Hl as _ <-; reflexivity.
      - rewrite resolve_args_cons in Hl.
        destruct (resolve_value data a sc0) as [e|[x sc2]] eqn:Ea; simpl in Hl; [discriminate|].
        destruct (resolve_args data l sc2) as [e|[xs sc3]] eqn:El; simpl in Hl; [discriminate|].
        injection Hl as _ <-.
        transitivity sc2; [exact (resolve_value_mono data a sc0 x sc2 Ea)|exact (go l sc2 xs sc3 El)]. }
    destruct (resolve_args data argv sc) as [e|[args sc1]] eqn:Ea; simpl in H; [discriminate|].
    pose proof (Hargs argv sc args sc1 Ea) as Hsc1.
    destruct (call_lib data fn args) as [e|r]; simpl in H; [discriminate|].
    destruct assign as [name|].
    + destruct (bool_decide (is_Some (sc1 !! name))) eqn:Eb; [discriminate|].
      injection H as _ <-.
      apply bool_decide_eq_false in Eb; apply eq_None_not_Some in Eb.
      transitivity sc1; [exact Hsc1|apply insert_subseteq; exact Eb].
    + injection H as _ <-; exact Hsc1.
Qed.

Lemma evaluate_conditions_mono (data : partitions_data) (cs : list condition) :
  forall (sc : scope) b sc', evaluate_conditions data cs sc = inr (b, sc') -> sc ⊆ sc'.
Proof.
  induction cs as [|c cs IH]; intros sc b sc' H; simpl in H.
  - injection H as _ <-; reflexivity.
  - destruct (call_function data c sc) as [e|[v sc1]] eqn:Ec; simpl in H; [discriminate|].
    pose proof (call_function_mono data c sc v sc1 Ec) as H1.
    destruct (condition_holds v).
    + transitivity sc1; [exact H1|exact (IH sc1 b sc' H)].
    + injection H as _ <-; exact H1.
Qed.

(** C5: a condition whose [assign] names a variable already in the
    scope fails, once its call is evaluated, with exactly the message
    ["Assignment <name> already exists in scoped variables and cannot be
    overwritten"]; evaluating conditions never removes or changes an
    existing binding; the chain of the test that assigns [bucketArn]
    twice fails with that message. *)
Theorem assign_existing_scope_var (data : partitions_data) :
  (forall fn argv name (sc : scope) r,
     is_Some (sc !! name) ->
     call_function data (Cond fn argv None) sc = inr r ->
     call_function data (Cond fn argv (Some name)) sc =
       inl (EndpointResolutionError
              ("Assignment " ++ name ++ " already exists in scoped variables and cannot be overwritten"))) /\
  (forall cs (sc : scope) b sc', evaluate_conditions data cs sc = inr (b, sc') -> sc ⊆ sc') /\
  evaluate_conditions partitions_json [bucket_arn_condition; bucket_arn_condition]
    (<["Bucket" := VStr "arn:aws:s3:us-east-1:123456789012:mybucket"]> ∅) =
  inl (EndpointResolutionError
         "Assignment bucketArn already exists in scoped variables and cannot be overwritten").
Proof.
  split; [|split; [exact (evaluate_conditions_mono data)|vm_compute; reflexivity]].
  intros fn argv name sc r Hin Hcall.
  rewrite call_function_unfold in Hcall |- *.
  destruct (resolve_args data argv sc) as [e|[args sc1]] eqn:Ea; simpl in Hcall |- *; [discriminate|].
  assert (Hsub : sc ⊆ sc1).
  { apply (call_function_mono data (Cond fn argv None) sc (fst r) sc1).
    rewrite call_function_unfold, Ea; simpl.
    destruct (call_lib data fn args) as [e|v]; simpl in Hcall; [discriminate|].
    injection Hcall as <-; reflexivity. }
  destruct (call_lib data fn args) as [e|v]; simpl in Hcall |- *; [discriminate|].
  destruct Hin as [x Hx].
  rewrite bool_decide_eq_true_2; [reflexivity|].
  exists x; eapply lookup_weaken; eassumption.
Qed.

(** ** Auth schemes *)

(** C4 (counterexample): [sigv4a] without the acceleration capability
    yields no usable auth type, yet the error is a missing-dependency
    error, not an unknown-signature-version error (the test
    [test_auth_schemes_conversion_sigv4a_without_crt]). *)
Lemma auth_schemes_sigv4a_without_crt :
  auth_schemes_to_signing_ctx false [] [sigv4a_scheme] =
    inl (MissingDependencyException missing_crt_message) /\
  ~ (exists sv, auth_schemes_to_signing_ctx false [] [sigv4a_scheme] =
                  inl (UnknownSignatureVersionError sv)).
Proof.
  split; [reflexivity|].
  intros [sv H]; vm_compute in H; discriminate.
Qed.

Lemma usable_skipped (has_crt : bool) (auth_type_maps : list (string * value)) (s : auth_scheme) :
  skipped_scheme auth_type_maps s -> usable_auth_type has_crt auth_type_maps s = None.
Proof.
  intros (H4 & H4a & Hm); unfold usable_auth_type.
  apply String.eqb_neq in H4, H4a; rewrite H4, H4a, Hm; reflexivity.
Qed.

Lemma usable_sigv4a_without_crt (auth_type_maps : list (string * value)) (s : auth_scheme) :
  scheme_name s = "sigv4a" -> usable_auth_type false auth_type_maps s = None.
Proof. intros Hn; unfold usable_auth_type; rewrite Hn; reflexivity. Qed.

Lemma select_auth_scheme_none (has_crt : bool) (auth_type_maps : list (string * value))
  (schemes : list auth_scheme) :
  select_auth_scheme has_crt auth_type_maps schemes = None <->
  Forall (fun s => usable_auth_type has_crt auth_type_maps s = None) schemes.
Proof.
  induction schemes as [|s rest IH]; simpl; [split; [constructor|reflexivity]|].
  destruct (usable_auth_type has_crt auth_type_maps s) as [r|] eqn:E.
  - split; [discriminate|intros H; inversion H; congruence].
  - rewrite IH; split; [intros H; constructor; assumption|intros H; inversion H; assumption].
Qed.

(** C4 (amended): candidates are tried in order; one that is not
    usable, a name that is neither [sigv4] nor [sigv4a] and that the
    alias table does not contain, or [sigv4a] without the acceleration
    capability, is skipped in favour of the next; when every candidate
    is such an unknown name the result is an unknown-signature-version
    error; when, without the capability, every candidate is an unknown
    name or [sigv4a], and one is [sigv4a], it is a missing-dependency
    error. *)
Theorem auth_scheme_selection (has_crt : bool) (auth_type_maps : list (string * value)) :
  (forall s rest, skipped_scheme auth_type_maps s ->
     select_auth_scheme has_crt auth_type_maps (s :: rest) =
     select_auth_scheme has_crt auth_type_maps rest) /\
  (forall s rest, scheme_name s = "sigv4a" -> has_crt = false ->
     select_auth_scheme has_crt auth_type_maps (s :: rest) =
     select_auth_scheme has_crt auth_type_maps rest) /\
  (forall schemes, Forall (skipped_scheme auth_type_maps) schemes ->
     auth_schemes_to_signing_ctx has_crt auth_type_maps schemes =
     inl (UnknownSignatureVersionError (join ", " (map scheme_name schemes)))) /\
  (forall schemes, has_crt = false ->
     Forall (fun s => skipped_scheme auth_type_maps s \/ scheme_name s = "sigv4a") schemes ->
     Exists (fun s => scheme_name s = "sigv4a") schemes ->
     auth_schemes_to_signing_ctx has_crt auth_type_maps schemes =
     inl (MissingDependencyException missing_crt_message)).
Proof.
  split; [|split; [|split]].
  - intros s rest Hs; simpl; rewrite usable_skipped by exact Hs; reflexivity.
  - intros s rest Hn ->; simpl; rewrite usable_sigv4a_without_crt by exact Hn; reflexivity.
  - intros schemes Hall.
    assert (Hnone : select_auth_scheme has_crt auth_type_maps schemes = None).
    { apply select_auth_scheme_none; eapply List.Forall_impl; [|exact Hall].
      intros s; apply usable_skipped. }
    unfold auth_schemes_to_signing_ctx; rewrite Hnone.
    assert (Hno : existsb (fun s => String.eqb (scheme_name s) "sigv4a") schemes = false).
    { apply not_true_iff_false; rewrite existsb_exists; intros (s & Hin & Hs).
      apply List.Forall_forall with (x := s) in Hall; [|exact Hin].
      destruct Hall as (_ & H & _); apply String.eqb_eq in Hs; contradiction. }
    rewrite Hno, andb_false_r; reflexivity.
  - intros schemes -> Hall Hex.
    assert (Hnone : select_auth_scheme false auth_type_maps schemes = None).
    { apply select_auth_scheme_none; eapply List.Forall_impl; [|exact Hall].
      intros s [Hs|Hs]; [apply usable_skipped, Hs|apply usable_sigv4a_without_crt, Hs]. }
    assert (Hyes : existsb (fun s => String.eqb (scheme_name s) "sigv4a") schemes = true).
    { apply existsb_exists; apply List.Exists_exists in Hex as (s & Hin & Hs).
      exists s; split; [exact Hin|apply String.eqb_eq, Hs]. }
    unfold auth_schemes_to_signing_ctx; rewrite Hnone, Hyes; reflexivity.
Qed.

(** ** Builtin resolution *)

Lemma resolve_builtin_region (r : credential_builtin_resolver) (b : gmap string value) :
  resolve_builtin r b AWS_REGION = inr (default VNone (b !! AWS_REGION)).
Proof. reflexivity. Qed.

Ltac host_ruleset_steps Hv :=
  unfold construct_endpoint;
  cbn [provider_params parameters account_id_ruleset credential_scope_ruleset
       builtin_host_ruleset param_name param_builtin];
  rewrite !lookup_empty, resolve_builtin_region;
  lazymatch goal with
  | Hr : region_ok _ |- _ =>
      unfold region_ok in Hr;
      destruct (default VNone (_ !! AWS_REGION)); try contradiction
  | _ => destruct (default VNone (_ !! AWS_REGION))
  end;
  cbn -[resolve_builtin]; rewrite Hv; vm_compute; reflexivity.

(** The two test rule sets: with the builtin resolved to a string [x]
    the host is [x.amazonaws.com]; with it absent, [amazonaws.com]; an
    error of the builtin is the error of the call. *)
Lemma host_ruleset_set (rs : ruleset) (builtin : string) (r : credential_builtin_resolver)
  (b : gmap string value) (x : string) :
  (rs, builtin) = (account_id_ruleset, AWS_ACCOUNT_ID) \/
  (rs, builtin) = (credential_scope_ruleset, AWS_CREDENTIAL_SCOPE) ->
  region_ok b -> resolve_builtin r b builtin = inr (VStr x) ->
  construct_endpoint partitions_json rs r b ∅ =
  inr (Endpoint ("https://" ++ x ++ ".amazonaws.com") [] []).
Proof.
  intros [H|H] Hr Hv; injection H as -> ->; host_ruleset_steps Hv.
Qed.

Lemma host_ruleset_unset (rs : ruleset) (builtin : string) (r : credential_builtin_resolver)
  (b : gmap string value) :
  (rs, builtin) = (account_id_ruleset, AWS_ACCOUNT_ID) \/
  (rs, builtin) = (credential_scope_ruleset, AWS_CREDENTIAL_SCOPE) ->
  region_ok b -> resolve_builtin r b builtin = inr VNone ->
  construct_endpoint partitions_json rs r b ∅ = inr (Endpoint "https://amazonaws.com" [] []).
Proof.
  intros [H|H] Hr Hv; injection H as -> ->; host_ruleset_steps Hv.
Qed.

Lemma host_ruleset_error (rs : ruleset) (builtin : string) (r : credential_builtin_resolver)
  (b : gmap string value) (e : error) :
  (rs, builtin) = (account_id_ruleset, AWS_ACCOUNT_ID) \/
  (rs, builtin) = (credential_scope_ruleset, AWS_CREDENTIAL_SCOPE) ->
  resolve_builtin r b builtin = inl e ->
  construct_endpoint partitions_json rs r b ∅ = inl e.
Proof.
  intros [H|H] Hv; injection H as -> ->; host_ruleset_steps Hv.
Qed.

(** C2 (counterexample): mode [required], an explicit account id
    ["0987654321"] and no credentials: the endpoint has no account id
    (the fifth case of [test_account_id_builtin]). *)
Lemma explicit_account_id_dropped_without_credentials :
  create_and_construct account_id_ruleset BUILTINS_WITH_RESOLVED_ACCOUNT_ID None "required" =
    inr (Endpoint "https://amazonaws.com" [] []) /\
  create_and_construct account_id_ruleset BUILTINS_WITH_RESOLVED_ACCOUNT_ID None "required" <>
    inr (Endpoint "https://0987654321.amazonaws.com" [] []).
Proof. split; vm_compute; [reflexivity|discriminate]. Qed.

(** C2 (amended): under [required] or [preferred], with credentials
    present, an explicitly supplied account id is the one resolved,
    whether or not the credentials carry an id, and the endpoint is
    built with it; with no credentials the account id is absent, an
    explicit one included. *)
Theorem explicit_account_id_precedence :
  (forall r b (c : credentials) x,
     cbr_mode r <> Disabled -> cbr_credentials r = Some c -> b !! AWS_ACCOUNT_ID = Some (VStr x) ->
     resolve_account_id r b = inr (VStr x) /\
     (region_ok b -> construct_endpoint partitions_json account_id_ruleset r b ∅ =
                     inr (Endpoint ("https://" ++ x ++ ".amazonaws.com") [] []))) /\
  (forall r b,
     cbr_credentials r = None ->
     resolve_account_id r b = inr VNone /\
     (region_ok b -> construct_endpoint partitions_json account_id_ruleset r b ∅ =
                     inr (Endpoint "https://amazonaws.com" [] []))).
Proof.
  split.
  - intros r b c x Hm Hc Hb.
    assert (Hres : resolve_account_id r b = inr (VStr x)).
    { unfold resolve_account_id; rewrite Hc, Hb; simpl.
      destruct (cbr_mode r); [reflexivity|reflexivity|contradiction]. }
    split; [exact Hres|].
    intros Hr; apply (host_ruleset_set _ AWS_ACCOUNT_ID); [left; reflexivity|exact Hr|exact Hres].
  - intros r b Hc.
    assert (Hres : resolve_account_id r b = inr VNone).
    { unfold resolve_account_id; rewrite Hc; destruct (cbr_mode r); reflexivity. }
    split; [exact Hres|].
    intros Hr; apply (host_ruleset_unset _ AWS_ACCOUNT_ID); [left; reflexivity|exact Hr|exact Hres].
Qed.

(** C3 (counterexample): mode [required], no explicit account id and no
    credentials: no account-id-not-found error, the endpoint simply has
    no account id. *)
Lemma required_mode_without_credentials :
  create_and_construct account_id_ruleset BUILTINS_WITH_UNRESOLVED_ACCOUNT_ID None "required" =
    inr (Endpoint "https://amazonaws.com" [] []) /\
  create_and_construct account_id_ruleset BUILTINS_WITH_UNRESOLVED_ACCOUNT_ID None "required" <>
    inl AccountIdNotFound.
Proof. split; vm_compute; [reflexivity|discriminate]. Qed.

(** C3 (amended): [disabled] never yields an account id, whatever the
    explicit value and the credentials; [required] fails with
    [AccountIdNotFound] when credentials are present without an account
    id and none is supplied explicitly; with no credentials the account
    id is absent and no error is raised. *)
Theorem account_id_mode_disabled_required :
  (forall r b,
     cbr_mode r = Disabled ->
     resolve_account_id r b = inr VNone /\
     (region_ok b -> construct_endpoint partitions_json account_id_ruleset r b ∅ =
                     inr (Endpoint "https://amazonaws.com" [] []))) /\
  (forall r b (c : credentials),
     cbr_mode r = Required -> cbr_credentials r = Some c -> account_id c = None ->
     is_set (default VNone (b !! AWS_ACCOUNT_ID)) = false ->
     construct_endpoint partitions_json account_id_ruleset r b ∅ = inl AccountIdNotFound) /\
  (forall r b, cbr_credentials r = None -> resolve_account_id r b = inr VNone).
Proof.
  split; [|split].
  - intros r b Hm.
    assert (Hres : resolve_account_id r b = inr VNone) by (unfold resolve_account_id; rewrite Hm; reflexivity).
    split; [exact Hres|].
    intros Hr; apply (host_ruleset_unset _ AWS_ACCOUNT_ID); [left; reflexivity|exact Hr|exact Hres].
  - intros r b c Hm Hc Ha Hb.
    apply (host_ruleset_error _ AWS_ACCOUNT_ID); [left; reflexivity|].
    change (resolve_account_id r b = inl AccountIdNotFound).
    unfold resolve_account_id; rewrite Hm, Hc; cbv zeta; rewrite Hb, Ha; reflexivity.
  - intros r b Hc; unfold resolve_account_id; rewrite Hc; destruct (cbr_mode r); reflexivity.
Qed.

(** C9: an explicitly supplied credential scope wins over the
    credentials' scope, which is used otherwise; with neither there is
    none; the resolved scope picks the endpoint branch: a string scope
    [x] gives [https://x.amazonaws.com], no scope gives
    [https://amazonaws.com]; the pre-resolved [us-east-1] wins over the
    credentials' [us-west-2]. *)
Theorem credential_scope_precedence (r : credential_builtin_resolver) (b : gmap string value) :
  (is_set (default VNone (b !! AWS_CREDENTIAL_SCOPE)) = true ->
   resolve_credential_scope r b = default VNone (b !! AWS_CREDENTIAL_SCOPE)) /\
  (forall c, is_set (default VNone (b !! AWS_CREDENTIAL_SCOPE)) = false ->
   cbr_credentials r = Some c ->
   resolve_credential_scope r b = match cred_scope c with Some s => VStr s | None => VNone end) /\
  (is_set (default VNone (b !! AWS_CREDENTIAL_SCOPE)) = false -> cbr_credentials r = None ->
   resolve_credential_scope r b = VNone) /\
  (forall x, region_ok b -> resolve_credential_scope r b = VStr x ->
   construct_endpoint partitions_json credential_scope_ruleset r b ∅ =
   inr (Endpoint ("https://" ++ x ++ ".amazonaws.com") [] [])) /\
  (region_ok b -> resolve_credential_scope r b = VNone ->
   construct_endpoint partitions_json credential_scope_ruleset r b ∅ =
   inr (Endpoint "https://amazonaws.com" [] [])) /\
  create_and_construct credential_scope_ruleset BUILTINS_WITH_RESOLVED_CREDENTIAL_SCOPE
    (Some CREDENTIALS_WITH_SCOPE) "preferred" = inr (Endpoint "https://us-east-1.amazonaws.com" [] []) /\
  create_and_construct credential_scope_ruleset BUILTINS_WITH_UNRESOLVED_CREDENTIAL_SCOPE
    None "preferred" = inr (Endpoint "https://amazonaws.com" [] []).
Proof.
  split; [|split; [|split; [|split; [|split; [|split]]]]].
  - intros H; unfold resolve_credential_scope; cbv zeta; rewrite H; reflexivity.
  - intros c H Hc; unfold resolve_credential_scope; cbv zeta; rewrite H, Hc; reflexivity.
  - intros H Hc; unfold resolve_credential_scope; cbv zeta; rewrite H, Hc; reflexivity.
  - intros x Hr Hx; apply (host_ruleset_set _ AWS_CREDENTIAL_SCOPE);
      [right; reflexivity|exact Hr|exact (f_equal inr Hx)].
  - intros Hr Hx; apply (host_ruleset_unset _ AWS_CREDENTIAL_SCOPE);
      [right; reflexivity|exact Hr|exact (f_equal inr Hx)].
  - vm_compute; reflexivity.
  - vm_compute; reflexivity.
Qed.

Section CacheProperties.

Context {K R : Type} `{EqDecision K}.
Variable evaluate : K -> result R.

Lemma cache_lookup_front (k : K) (r : R) (c : list (K * R)) :
  cache_lookup k ((k, r) :: c) = Some r.
Proof. simpl; destruct (decide (k = k)); congruence. Qed.

Lemma resolve_endpoint_hit (p : provider) (k : K) (r : R) :
  cache_lookup k (cache p) = Some r ->
  resolve_endpoint evaluate p k =
    (inr r, Provider ((k, r) :: cache_remove k (cache p)) (capacity p) (evaluations p)).
Proof. intros H; unfold resolve_endpoint; rewrite H; reflexivity. Qed.

Lemma resolve_endpoint_miss (p : provider) (k : K) :
  cache_lookup k (cache p) = None ->
  (resolve_endpoint evaluate p k).1 = evaluate k /\
  evaluations (resolve_endpoint evaluate p k).2 = (evaluations p ++ [k])%list.
Proof.
  intros H; unfold resolve_endpoint; rewrite H.
  destruct (evaluate k); split; reflexivity.
Qed.

(** Once [k] is cached, any number of calls with [k] return the cached
    result and leave the evaluations untouched. *)
Lemma resolve_all_repeat_hit (m : nat) : forall (p : provider) (k : K) (r : R),
  cache_lookup k (cache p) = Some r ->
  (resolve_all evaluate p (repeat k m)).1 = repeat (inr r) m /\
  evaluations (resolve_all evaluate p (repeat k m)).2 = evaluations p.
Proof.
  induction m as [|m IH]; intros p k r H; [split; reflexivity|].
  cbn [repeat resolve_all]; rewrite (resolve_endpoint_hit p k r H).
  destruct (IH (Provider ((k, r) :: cache_remove k (cache p)) (capacity p) (evaluations p)) k r
              (cache_lookup_front _ _ _)) as [H1 H2].
  destruct (resolve_all evaluate _ (repeat k m)) as [rs p2]; simpl in *.
  rewrite H1, H2; split; reflexivity.
Qed.

(** After a call with [k] that succeeded, [k] is in the cache (a
    capacity of at least one). *)
Lemma resolve_endpoint_caches (p : provider) (k : K) (r : R) :
  1 <= capacity p -> (resolve_endpoint evaluate p k).1 = inr r ->
  cache_lookup k (cache (resolve_endpoint evaluate p k).2) = Some r.
Proof.
  intros Hc; unfold resolve_endpoint.
  destruct (cache_lookup k (cache p)) as [r'|] eqn:E.
  - simpl; intros [= <-]; apply cache_lookup_front.
  - destruct (evaluate k) as [e|r']; simpl; [discriminate|intros [= <-]].
    destruct (capacity p) as [|n]; [lia|]; apply cache_lookup_front.
Qed.

End CacheProperties.

(** C1 (counterexample): the cache is bounded; with capacity 2 the
    calls [us-east-1], [us-west-2], [eu-west-1], [us-east-1] evict the
    first snapshot, so its repeat re-invokes the evaluator (it is
    evaluated twice). *)
Lemma cache_evicted_snapshot_reevaluated :
  evaluations (resolve_all region_evaluate (new_provider 2)
     (map region_snapshot ["us-east-1"; "us-west-2"; "eu-west-1"; "us-east-1"])).2 =
  map region_snapshot ["us-east-1"; "us-west-2"; "eu-west-1"; "us-east-1"] /\
  (resolve_all region_evaluate (new_provider 2)
     (map region_snapshot ["us-east-1"; "us-west-2"; "eu-west-1"; "us-east-1"])).1 =
  [inr (Endpoint "https://us-east-1.amazonaws.com" [] []);
   inr (Endpoint "https://us-west-2.amazonaws.com" [] []);
   inr (Endpoint "https://eu-west-1.amazonaws.com" [] []);
   inr (Endpoint "https://us-east-1.amazonaws.com" [] [])].
Proof. split; vm_compute; reflexivity. Qed.

(** C1 (amended): a call whose snapshot is held in the provider's
    bounded cache returns the cached endpoint, any number of times,
    without invoking the evaluator; a call whose snapshot is not in the
    cache (never resolved, or evicted) invokes the evaluator once and
    returns its result; after a successful call, repeating the same
    snapshot is such a cache hit, with an equal result. *)
Theorem endpoint_cache_behaviour (data : partitions_data) (rs : ruleset)
  (p : provider) (k : scope) :
  let ev := resolve_endpoint_uncached data rs in
  (forall r m, cache_lookup k (cache p) = Some r ->
     (resolve_all ev p (repeat k m)).1 = repeat (inr r) m /\
     evaluations (resolve_all ev p (repeat k m)).2 = evaluations p) /\
  (cache_lookup k (cache p) = None ->
     (resolve_endpoint ev p k).1 = ev k /\
     evaluations (resolve_endpoint ev p k).2 = (evaluations p ++ [k])%list) /\
  (forall r m, 1 <= capacity p -> (resolve_endpoint ev p k).1 = inr r ->
     (resolve_all ev (resolve_endpoint ev p k).2 (repeat k m)).1 = repeat (inr r) m /\
     evaluations (resolve_all ev (resolve_endpoint ev p k).2 (repeat k m)).2 =
       evaluations (resolve_endpoint ev p k).2).
Proof.
  intros ev; split; [|split].
  - intros r m H; apply resolve_all_repeat_hit; exact H.
  - apply resolve_endpoint_miss.
  - intros r m Hc Hr; apply resolve_all_repeat_hit, resolve_endpoint_caches; assumption.
Qed.

(* ------------------------------------------------------------------ *)
(** ** Instances of the hypotheses *)

Lemma aws_parse_arn_fields_witness :
  Str.startswith "arn:" "arn:aws:s3:us-west-2:123:res/a" = true /\
  Str.split_max (Str.is_char ":") 5 "arn:aws:s3:us-west-2:123:res/a" =
    ["arn"; "aws"; "s3"; "us-west-2"; "123"; "res/a"] /\
  aws_parse_arn (VStr "arn:aws:s3:us-west-2:123:res/a") =
    inr (VDict [("partition", VStr "aws"); ("service", VStr "s3"); ("region", VStr "us-west-2");
                ("accountId", VStr "123"); ("resourceId", VList [VStr "res"; VStr "a"])]).
Proof.
  split; [reflexivity|split; [vm_compute; reflexivity|]].
  destruct (aws_parse_arn_fields "arn:aws:s3:us-west-2:123:res/a") as (_ & _ & _ & H & _).
  rewrite (H "arn" "aws" "s3" "us-west-2" "123" "res/a");
    [vm_compute; reflexivity|reflexivity|vm_compute; reflexivity].
Defined.

Lemma aws_partition_default_witness :
  (forallb (fun p => negb (partition_matches "mars-central-1" p)) (partitions partitions_json) = true /\
   aws_partition partitions_json (VStr "mars-central-1") = partition_dict aws_std) /\
  (partition_matches "cn-north-1" aws_std = false /\
   partition_matches "cn-north-1" aws_cn = true /\
   aws_partition partitions_json (VStr "cn-north-1") = partition_dict aws_cn).
Proof.
  assert (H : forallb (fun p => negb (partition_matches "mars-central-1" p))
                (partitions partitions_json) = true) by (vm_compute; reflexivity).
  assert (H1 : partition_matches "cn-north-1" aws_std = false) by (vm_compute; reflexivity).
  assert (H2 : partition_matches "cn-north-1" aws_cn = true) by (vm_compute; reflexivity).
  split; (split; [assumption|]).
  - exact (proj1 (proj2 (proj2 (aws_partition_default partitions_json "mars-central-1"))) H).
  - split; [exact H2|].
    apply (proj1 (aws_partition_default partitions_json "cn-north-1") [aws_std] aws_cn [aws_us_gov]);
      [reflexivity|vm_compute; reflexivity|exact H2].
Defined.

Lemma aws_is_virtual_hostable_s3_bucket_iff_witness :
  aws_is_virtual_hostable_s3_bucket (VStr "my-bucket") (VBool false) = inr (VBool true) /\
  aws_is_virtual_hostable_s3_bucket (VStr "my.bucket") (VBool true) = inr (VBool true) /\
  Forall (fun l => (1 <= String.length l <= 63)%nat /\ Str.forallb_str label_char l = true /\
                   Str.first_char l <> Some "-"%char /\ Str.last_char l <> Some "-"%char)
    ["my"; "bucket"].
Proof.
  assert (H : aws_is_virtual_hostable_s3_bucket (VStr "my.bucket") (VBool true) = inr (VBool true))
    by (vm_compute; reflexivity).
  split; [|split; [exact H|]].
  - apply (proj2 (proj1 (proj2 (aws_is_virtual_hostable_s3_bucket_iff "my-bucket" false)))).
    split; [simpl; lia|].
    split; [vm_compute; reflexivity|].
    split; [vm_compute; reflexivity|].
    split; [intros _; vm_compute; reflexivity|].
    constructor; [|constructor].
    split; [simpl; lia|].
    split; [vm_compute; reflexivity|].
    split; intros Hc; vm_compute in Hc; discriminate.
  - exact (proj2 (proj2 (proj2 (proj2
             (proj1 (proj1 (proj2 (aws_is_virtual_hostable_s3_bucket_iff "my.bucket" true))) H))))).
Defined.

Lemma virtual_hostable_length_whole_name_witness :
  aws_is_virtual_hostable_s3_bucket (VStr "a.b") (VBool true) = inr (VBool true) /\
  (3 <= String.length "a.b")%nat /\
  Forall (fun l => (1 <= String.length l <= 63)%nat) ["a"; "b"].
Proof.
  assert (H : aws_is_virtual_hostable_s3_bucket (VStr "a.b") (VBool true) = inr (VBool true))
    by (vm_compute; reflexivity).
  split; [exact H|exact (proj1 (virtual_hostable_length_whole_name "a.b") H)].
Defined.

Lemma assign_existing_scope_var_witness :
  let sc : scope := <["bucketArn" := VStr "x"]>
                      (<["Bucket" := VStr "arn:aws:s3:us-east-1:123456789012:mybucket"]> ∅) in
  is_Some (sc !! "bucketArn") /\
  call_function partitions_json (Cond "aws.parseArn" [AStr "{Bucket}"] None) sc =
    inr (VDict [("partition", VStr "aws"); ("service", VStr "s3"); ("region", VStr "us-east-1");
                ("accountId", VStr "123456789012"); ("resourceId", VList [VStr "mybucket"])], sc) /\
  call_function partitions_json (Cond "aws.parseArn" [AStr "{Bucket}"] (Some "bucketArn")) sc =
    inl (EndpointResolutionError
           "Assignment bucketArn already exists in scoped variables and cannot be overwritten").
Proof.
  intros sc.
  assert (H1 : is_Some (sc !! "bucketArn")) by (vm_compute; eexists; reflexivity).
  assert (H2 : call_function partitions_json (Cond "aws.parseArn" [AStr "{Bucket}"] None) sc =
    inr (VDict [("partition", VStr "aws"); ("service", VStr "s3"); ("region", VStr "us-east-1");
                ("accountId", VStr "123456789012"); ("resourceId", VList [VStr "mybucket"])], sc))
    by (vm_compute; reflexivity).
  split; [exact H1|split; [exact H2|]].
  exact (proj1 (assign_existing_scope_var partitions_json) _ _ "bucketArn" sc _ H1 H2).
Defined.

Lemma auth_scheme_selection_witness :
  skipped_scheme [("bar", VNone)] [("name", VStr "foo")] /\
  select_auth_scheme false [("bar", VNone)]
    [[("name", VStr "foo")]; [("name", VStr "bar"); ("signingName", VStr "s3")]] =
  select_auth_scheme false [("bar", VNone)] [[("name", VStr "bar"); ("signingName", VStr "s3")]] /\
  select_auth_scheme false [("bar", VNone)]
    [sigv4a_scheme; [("name", VStr "bar"); ("signingName", VStr "s3")]] =
    Some ("bar", [("signing_name", VStr "s3")]) /\
  auth_schemes_to_signing_ctx false [("bar", VNone)] [[("name", VStr "foo")]; [("name", VStr "baz")]] =
    inl (UnknownSignatureVersionError "foo, baz") /\
  auth_schemes_to_signing_ctx false [("bar", VNone)] [[("name", VStr "foo")]; sigv4a_scheme] =
    inl (MissingDependencyException missing_crt_message).
Proof.
  assert (H : skipped_scheme [("bar", VNone)] [("name", VStr "foo")]).
  { unfold skipped_scheme; vm_compute; split; [discriminate|split; [discriminate|reflexivity]]. }
  assert (H' : skipped_scheme [("bar", VNone)] [("name", VStr "baz")]).
  { unfold skipped_scheme; vm_compute; split; [discriminate|split; [discriminate|reflexivity]]. }
  destruct (auth_scheme_selection false [("bar", VNone)]) as (H1 & H2 & H3 & H4).
  split; [exact H|split; [|split; [|split]]].
  - exact (H1 _ _ H).
  - rewrite (H2 sigv4a_scheme _ eq_refl eq_refl); reflexivity.
  - apply (H3 [[("name", VStr "foo")]; [("name", VStr "baz")]]).
    constructor; [exact H|constructor; [exact H'|constructor]].
  - apply H4; [reflexivity| |].
    + constructor; [left; exact H|constructor; [right; reflexivity|constructor]].
    + right; left; reflexivity.
Defined.

Lemma explicit_account_id_precedence_witness :
  region_ok BUILTINS_WITH_RESOLVED_ACCOUNT_ID /\
  BUILTINS_WITH_RESOLVED_ACCOUNT_ID !! AWS_ACCOUNT_ID = Some (VStr "0987654321") /\
  construct_endpoint partitions_json account_id_ruleset
    (CredentialBuiltinResolver_ (Some CREDENTIALS) Required) BUILTINS_WITH_RESOLVED_ACCOUNT_ID ∅ =
    inr (Endpoint "https://0987654321.amazonaws.com" [] []) /\
  resolve_account_id (CredentialBuiltinResolver_ None Preferred) BUILTINS_WITH_RESOLVED_ACCOUNT_ID =
    inr VNone.
Proof.
  assert (Hr : region_ok BUILTINS_WITH_RESOLVED_ACCOUNT_ID) by (vm_compute; exact I).
  assert (Hb : BUILTINS_WITH_RESOLVED_ACCOUNT_ID !! AWS_ACCOUNT_ID = Some (VStr "0987654321"))
    by (vm_compute; reflexivity).
  split; [exact Hr|split; [exact Hb|split]].
  - apply (proj2 (proj1 explicit_account_id_precedence
                   (CredentialBuiltinResolver_ (Some CREDENTIALS) Required)
                   BUILTINS_WITH_RESOLVED_ACCOUNT_ID CREDENTIALS "0987654321"
                   ltac:(discriminate) eq_refl Hb) Hr).
  - exact (proj1 (proj2 explicit_account_id_precedence
                    (CredentialBuiltinResolver_ None Preferred) BUILTINS_WITH_RESOLVED_ACCOUNT_ID eq_refl)).
Defined.

Lemma account_id_mode_disabled_required_witness :
  construct_endpoint partitions_json account_id_ruleset
    (CredentialBuiltinResolver_ (Some CREDENTIALS) Disabled) BUILTINS_WITH_RESOLVED_ACCOUNT_ID ∅ =
    inr (Endpoint "https://amazonaws.com" [] []) /\
  construct_endpoint partitions_json account_id_ruleset
    (CredentialBuiltinResolver_ (Some (Credentials "access_key" "secret_key" None None None)) Required)
    BUILTINS_WITH_UNRESOLVED_ACCOUNT_ID ∅ = inl AccountIdNotFound /\
  resolve_account_id (CredentialBuiltinResolver_ None Required) BUILTINS_WITH_UNRESOLVED_ACCOUNT_ID =
    inr VNone.
Proof.
  destruct account_id_mode_disabled_required as (H1 & H2 & H3).
  split; [|split].
  - apply (proj2 (H1 (CredentialBuiltinResolver_ (Some CREDENTIALS) Disabled)
                     BUILTINS_WITH_RESOLVED_ACCOUNT_ID eq_refl)).
    vm_compute; exact I.
  - apply (H2 (CredentialBuiltinResolver_ (Some (Credentials "access_key" "secret_key" None None None)) Required)
              BUILTINS_WITH_UNRESOLVED_ACCOUNT_ID
              (Credentials "access_key" "secret_key" None None None) eq_refl eq_refl eq_refl).
    vm_compute; reflexivity.
  - exact (H3 (CredentialBuiltinResolver_ None Required) BUILTINS_WITH_UNRESOLVED_ACCOUNT_ID eq_refl).
Defined.

Lemma credential_scope_precedence_witness :
  is_set (default VNone (BUILTINS_WITH_RESOLVED_CREDENTIAL_SCOPE !! AWS_CREDENTIAL_SCOPE)) = true /\
  resolve_credential_scope (CredentialBuiltinResolver_ (Some CREDENTIALS_WITH_SCOPE) Preferred)
    BUILTINS_WITH_RESOLVED_CREDENTIAL_SCOPE = VStr "us-east-1" /\
  resolve_credential_scope (CredentialBuiltinResolver_ (Some CREDENTIALS_WITH_SCOPE) Preferred)
    BUILTINS_WITH_UNRESOLVED_CREDENTIAL_SCOPE = VStr "us-west-2" /\
  construct_endpoint partitions_json credential_scope_ruleset
    (CredentialBuiltinResolver_ (Some CREDENTIALS_WITH_SCOPE) Preferred)
    BUILTINS_WITH_UNRESOLVED_CREDENTIAL_SCOPE ∅ =
    inr (Endpoint "https://us-west-2.amazonaws.com" [] []).
Proof.
  set (r := CredentialBuiltinResolver_ (Some CREDENTIALS_WITH_SCOPE) Preferred).
  assert (Hs : is_set (default VNone (BUILTINS_WITH_RESOLVED_CREDENTIAL_SCOPE !! AWS_CREDENTIAL_SCOPE)) = true)
    by (vm_compute; reflexivity).
  assert (Hu : is_set (default VNone (BUILTINS_WITH_UNRESOLVED_CREDENTIAL_SCOPE !! AWS_CREDENTIAL_SCOPE)) = false)
    by (vm_compute; reflexivity).
  assert (Hw : resolve_credential_scope r BUILTINS_WITH_UNRESOLVED_CREDENTIAL_SCOPE = VStr "us-west-2")
    by exact (proj1 (proj2 (credential_scope_precedence r BUILTINS_WITH_UNRESOLVED_CREDENTIAL_SCOPE))
                CREDENTIALS_WITH_SCOPE Hu eq_refl).
  split; [exact Hs|split; [|split; [exact Hw|]]].
  - exact (proj1 (credential_scope_precedence r BUILTINS_WITH_RESOLVED_CREDENTIAL_SCOPE) Hs).
  - apply (proj1 (proj2 (proj2 (proj2 (credential_scope_precedence r BUILTINS_WITH_UNRESOLVED_CREDENTIAL_SCOPE))))
             "us-west-2"); [vm_compute; exact I|exact Hw].
Defined.

Lemma endpoint_cache_behaviour_witness :
  cache_lookup (region_snapshot "us-east-2") (cache (new_provider (K:=scope) (R:=endpoint) 100)) = None /\
  (resolve_endpoint region_evaluate (new_provider 100) (region_snapshot "us-east-2")).1 =
    inr (Endpoint "https://us-east-2.amazonaws.com" [] []) /\
  evaluations (resolve_all region_evaluate
    (resolve_endpoint region_evaluate (new_provider 100) (region_snapshot "us-east-2")).2
    (repeat (region_snapshot "us-east-2") 4)).2 = [region_snapshot "us-east-2"].
Proof.
  destruct (endpoint_cache_behaviour partitions_json region_ruleset (new_provider 100)
              (region_snapshot "us-east-2")) as (_ & Hmiss & Hrep).
  assert (H0 : cache_lookup (region_snapshot "us-east-2") (cache (new_provider (K:=scope) (R:=endpoint) 100)) = None)
    by reflexivity.
  assert (H1 : (resolve_endpoint region_evaluate (new_provider 100) (region_snapshot "us-east-2")).1 =
                 inr (Endpoint "https://us-east-2.amazonaws.com" [] []))
    by (unfold region_evaluate; rewrite (proj1 (Hmiss H0)); vm_compute; reflexivity).
  split; [exact H0|split; [exact H1|]].
  unfold region_evaluate in *; rewrite (proj2 (Hrep _ 4 ltac:(simpl; lia) H1)).
  exact (proj2 (Hmiss H0)).
Defined.

(* ------------------------------------------------------------------ *)
(** * Further properties of the modelled code *)

(** ** The provider cache *)

Section CacheInvariants.

Context {K R : Type} `{EqDecision K}.
Variable evaluate : K -> result R.

Lemma cache_lookup_ok (c : list (K * R)) (k : K) (r : R) :
  cache_ok evaluate c -> cache_lookup k c = Some r -> evaluate k = inr r.
Proof.
  induction c as [|[k' r'] c IH]; simpl; [discriminate|].
  intros Hok; inversion Hok as [|? ? Hkr Hc]; subst; simpl in Hkr.
  destruct (decide (k = k')) as [->|_]; [intros [= <-]; exact Hkr|exact (IH Hc)].
Qed.

Lemma cache_remove_ok (c : list (K * R)) (k : K) :
  cache_ok evaluate c -> cache_ok evaluate (cache_remove k c).
Proof.
  unfold cache_ok, cache_remove; rewrite !List.Forall_forall.
  intros Hok x Hx; apply List.filter_In in Hx as [Hx _]; exact (Hok x Hx).
Qed.

Lemma cache_remove_shorter (c : list (K * R)) (k : K) (r : R) :
  cache_lookup k c = Some r -> (length (cache_remove k c) < length c)%nat.
Proof.
  induction c as [|[k' r'] c IH]; simpl; [discriminate|].
  unfold cache_remove in *; simpl.
  destruct (decide (k = k')) as [->|Hne].
  - intros _; rewrite bool_decide_true by reflexivity; simpl.
    pose proof (List.filter_length_le (fun kr => negb (bool_decide (fst kr = k'))) c); lia.
  - intros Hl; rewrite bool_decide_false by congruence; simpl.
    specialize (IH Hl); lia.
Qed.

Lemma resolve_endpoint_ok (p : provider) (k : K) :
  cache_ok evaluate (cache p) ->
  (resolve_endpoint evaluate p k).1 = evaluate k /\
  cache_ok evaluate (cache (resolve_endpoint evaluate p k).2) /\
  capacity (resolve_endpoint evaluate p k).2 = capacity p.
Proof.
  intros Hok; unfold resolve_endpoint.
  destruct (cache_lookup k (cache p)) as [r|] eqn:E.
  - simpl; split; [symmetry; exact (cache_lookup_ok _ _ _ Hok E)|split; [|reflexivity]].
    constructor; [exact (cache_lookup_ok _ _ _ Hok E)|apply cache_remove_ok; exact Hok].
  - destruct (evaluate k) as [e|r] eqn:Ev; simpl; (split; [reflexivity|split; [|reflexivity]]);
      [exact Hok|].
    apply Forall_take; constructor; [exact Ev|exact Hok].
Qed.

Lemma resolve_endpoint_bounded (p : provider) (k : K) :
  (length (cache p) <= capacity p)%nat ->
  (length (cache (resolve_endpoint evaluate p k).2) <= capacity (resolve_endpoint evaluate p k).2)%nat.
Proof.
  intros Hl; unfold resolve_endpoint.
  destruct (cache_lookup k (cache p)) as [r|] eqn:E.
  - simpl; pose proof (cache_remove_shorter _ _ _ E); lia.
  - destruct (evaluate k); simpl; [exact Hl|].
    rewrite List.length_firstn; lia.
Qed.

End CacheInvariants.

(** X1: the cache never changes a result: when every stored entry is
    what the evaluator gives for its snapshot (as in a new provider), a
    sequence of [resolve_endpoint] calls returns exactly the uncached
    results, call by call, and the cache stays consistent. *)
Theorem provider_cache_transparent (data : partitions_data) (rs : ruleset) :
  forall (ks : list scope) (p : provider),
  cache_ok (resolve_endpoint_uncached data rs) (cache p) ->
  (resolve_all (resolve_endpoint_uncached data rs) p ks).1 =
    map (resolve_endpoint_uncached data rs) ks /\
  cache_ok (resolve_endpoint_uncached data rs)
    (cache (resolve_all (resolve_endpoint_uncached data rs) p ks).2).
Proof.
  induction ks as [|k ks IH]; intros p Hok; [split; [reflexivity|exact Hok]|].
  cbn [resolve_all map].
  destruct (resolve_endpoint_ok (resolve_endpoint_uncached data rs) p k Hok) as (H1 & H2 & _).
  destruct (resolve_endpoint (resolve_endpoint_uncached data rs) p k) as [r p1]; simpl in *.
  destruct (IH p1 H2) as [H3 H4].
  destruct (resolve_all _ p1 ks) as [l p2]; simpl in *.
  rewrite H1, H3; split; [reflexivity|exact H4].
Qed.

(** X2: the cache is bounded: if it holds at most [capacity] entries,
    it still does after any sequence of calls, and the capacity does not
    change. *)
Theorem provider_cache_bounded (data : partitions_data) (rs : ruleset) :
  forall (ks : list scope) (p : provider),
  (length (cache p) <= capacity p)%nat ->
  (length (cache (resolve_all (resolve_endpoint_uncached data rs) p ks).2) <= capacity p)%nat /\
  capacity (resolve_all (resolve_endpoint_uncached data rs) p ks).2 = capacity p.
Proof.
  induction ks as [|k ks IH]; intros p Hl; [split; [exact Hl|reflexivity]|].
  cbn [resolve_all].
  assert (Hc : capacity (resolve_endpoint (resolve_endpoint_uncached data rs) p k).2 = capacity p).
  { unfold resolve_endpoint; destruct (cache_lookup k (cache p));
      [reflexivity|destruct (resolve_endpoint_uncached data rs k); reflexivity]. }
  pose proof (resolve_endpoint_bounded (resolve_endpoint_uncached data rs) p k Hl) as Hb.
  destruct (resolve_endpoint _ p k) as [r p1]; simpl in *.
  rewrite Hc in Hb.
  destruct (IH p1 ltac:(rewrite Hc; exact Hb)) as [H3 H4].
  destruct (resolve_all _ p1 ks) as [l p2]; simpl in *.
  rewrite <- Hc; split; [rewrite Hc; rewrite <- H4, Hc in *; lia|rewrite H4; reflexivity].
Qed.

(** ** The function library *)

Lemma split_max_field (p : ascii -> bool) (n : nat) (a : string) (c : ascii) (rest : string) :
  Str.existsb_str p a = false -> p c = true ->
  Str.split_max p (S n) (a ++ String c rest) = a :: Str.split_max p n rest.
Proof.
  induction a as [|ch a IH]; simpl; intros Ha Hc; [rewrite Hc; reflexivity|].
  apply orb_false_iff in Ha as [Hch Ha]; rewrite Hch, (IH Ha Hc); reflexivity.
Qed.

Lemma split_by_without (p : ascii -> bool) (s : string) :
  Str.existsb_str p s = false -> Str.split_by p s = [s].
Proof.
  induction s as [|ch s IH]; simpl; [reflexivity|].
  intros H; apply orb_false_iff in H as [H1 H2]; rewrite H1, (IH H2); reflexivity.
Qed.

Lemma split_max_zero (p : ascii -> bool) (s : string) : Str.split_max p 0 s = [s].
Proof. destruct s; reflexivity. Qed.

(** X3: [aws.parseArn] inverts the ARN layout: for partition, service,
    region and account fields without [':'] and any resource text, the
    string ["arn:" p ":" s ":" r ":" a ":" res] parses back to these
    fields, the resource split on ['/'] or [':']; an absent argument
    gives [None] and any other non-string argument a resolution error. *)
Theorem aws_parse_arn_roundtrip (p s r a res : string) :
  Str.existsb_str (Str.is_char ":") p = false ->
  Str.existsb_str (Str.is_char ":") s = false ->
  Str.existsb_str (Str.is_char ":") r = false ->
  Str.existsb_str (Str.is_char ":") a = false ->
  aws_parse_arn (VStr ("arn:" ++ p ++ ":" ++ s ++ ":" ++ r ++ ":" ++ a ++ ":" ++ res)) =
    inr (VDict [("partition", VStr p); ("service", VStr s); ("region", VStr r);
                ("accountId", VStr a);
                ("resourceId", VList (map VStr (Str.split_by
                   (fun ch => Str.is_char "/" ch || Str.is_char ":" ch) res)))]) /\
  aws_parse_arn VNone = inr VNone /\
  (forall v, v <> VNone -> (forall x, v <> VStr x) ->
   aws_parse_arn v = inl (type_error "aws.parseArn")).
Proof.
  intros Hp Hs Hr Ha; split; [|split; [reflexivity|]].
  - unfold aws_parse_arn.
    change ("arn:" ++ ?x)%string with ("arn" ++ String ":" x)%string.
    replace (Str.startswith "arn:" ("arn" ++ String ":" (p ++ ":" ++ s ++ ":" ++ r ++ ":" ++ a ++ ":" ++ res)))
      with true by (unfold Str.startswith; simpl; destruct p; reflexivity).
    repeat change (":" ++ ?x)%string with (String ":" x).
    rewrite (split_max_field (Str.is_char ":") 4 "arn" ":" _ eq_refl eq_refl).
    rewrite (split_max_field (Str.is_char ":") 3 p ":" _ Hp eq_refl).
    rewrite (split_max_field (Str.is_char ":") 2 s ":" _ Hs eq_refl).
    rewrite (split_max_field (Str.is_char ":") 1 r ":" _ Hr eq_refl).
    rewrite (split_max_field (Str.is_char ":") 0 a ":" _ Ha eq_refl).
    rewrite split_max_zero; reflexivity.
  - intros v Hn Hv; destruct v; try reflexivity; [contradiction|exfalso; exact (Hv s0 eq_refl)].
Qed.

(** X4: allowing subdomains only widens [aws.isVirtualHostableS3Bucket]:
    a name accepted without subdomains is accepted with them; an absent
    bucket gives [False], and a bucket or flag of another type than a
    string and a boolean is a resolution error. *)
Theorem virtual_hostable_allow_monotone (b : string) :
  (aws_is_virtual_hostable_s3_bucket (VStr b) (VBool false) = inr (VBool true) ->
   aws_is_virtual_hostable_s3_bucket (VStr b) (VBool true) = inr (VBool true)) /\
  (forall allow, aws_is_virtual_hostable_s3_bucket VNone allow = inr (VBool false)) /\
  (forall bucket allow, bucket <> VNone -> (forall x y, (bucket, allow) <> (VStr x, VBool y)) ->
   aws_is_virtual_hostable_s3_bucket bucket allow = inl (type_error "aws.isVirtualHostableS3Bucket")).
Proof.
  split; [|split; [reflexivity|]].
  - unfold aws_is_virtual_hostable_s3_bucket.
    destruct (_ || _ || _); [discriminate|].
    intros [= H]; apply andb_true_iff in H as [Hd Hl].
    apply negb_true_iff in Hd; rewrite (split_by_without _ b Hd); simpl; rewrite Hl; reflexivity.
  - intros bucket allow Hn H; destruct bucket; try reflexivity; [contradiction|].
    destruct allow; try reflexivity; exfalso; exact (H s b0 eq_refl).
Qed.

(** ** Rule evaluation *)

Lemma first_match_skip (data : partitions_data) (pre rest : list rule) (sc : scope) :
  Forall (fun r => eval_rule data r sc = inr None) pre ->
  first_match data (pre ++ rest) sc = first_match data rest sc.
Proof.
  induction 1 as [|r pre Hr _ IH]; [reflexivity|].
  simpl; rewrite Hr; exact IH.
Qed.

Lemma eval_rule_conditions_error (data : partitions_data) (r : rule) (sc : scope) (e : error) :
  evaluate_conditions data (rule_conditions r) sc = inl e -> eval_rule data r sc = inl e.
Proof. destruct r; simpl; intros H; rewrite H; reflexivity. Qed.

Lemma resolve_endpoint_uncached_rules (data : partitions_data) (rs : ruleset) (input sc : scope) :
  process_input_parameters (parameters rs) input = inr sc ->
  resolve_endpoint_uncached data rs input =
    (o ← first_match data (rules rs) sc;
     match o with
     | Some e => mret e
     | None => raise (EndpointResolutionError "No endpoint found for parameters")
     end).
Proof. intros H; unfold resolve_endpoint_uncached, ruleset_evaluate; rewrite H; reflexivity. Qed.

(** A condition that raises, in the first rule not passed over, fails
    the resolution. *)
Lemma resolve_condition_error (data : partitions_data) (rs : ruleset) (input sc : scope)
  (pre post : list rule) (r : rule) (e : error) :
  process_input_parameters (parameters rs) input = inr sc ->
  Forall (fun r' => eval_rule data r' sc = inr None) pre ->
  rules rs = (pre ++ r :: post)%list ->
  evaluate_conditions data (rule_conditions r) sc = inl e ->
  resolve_endpoint_uncached data rs input = inl e.
Proof.
  intros Hp Hpre Hrs He; rewrite (resolve_endpoint_uncached_rules data rs input sc Hp).
  rewrite Hrs, first_match_skip by exact Hpre.
  simpl; rewrite (eval_rule_conditions_error data r sc e He); reflexivity.
Qed.

(** X5: rules are tried in declared order and the first match wins:
    after rules that do not match, a rule that yields an endpoint gives
    the result, whatever follows; when no rule matches, resolution fails
    with "No endpoint found for parameters". *)
Theorem first_match_wins (data : partitions_data) (rs : ruleset) (input sc : scope) :
  process_input_parameters (parameters rs) input = inr sc ->
  (forall pre r post e,
     rules rs = (pre ++ r :: post)%list ->
     Forall (fun r' => eval_rule data r' sc = inr None) pre ->
     eval_rule data r sc = inr (Some e) ->
     resolve_endpoint_uncached data rs input = inr e) /\
  (Forall (fun r' => eval_rule data r' sc = inr None) (rules rs) ->
   resolve_endpoint_uncached data rs input =
     inl (EndpointResolutionError "No endpoint found for parameters")).
Proof.
  intros Hp; rewrite (resolve_endpoint_uncached_rules data rs input sc Hp); split.
  - intros pre r post e Hrs Hpre Hr; rewrite Hrs, first_match_skip by exact Hpre.
    simpl; rewrite Hr; reflexivity.
  - intros Hall; rewrite <- (app_nil_r (rules rs)), first_match_skip by exact Hall; reflexivity.
Qed.

(** X6: an error rule whose conditions hold ends the search: after rules
    that do not match, it fails the resolution with its rendered message,
    even when a later rule would match; so does a condition that raises
    (a type error, a duplicate assignment) in the first rule that is not
    passed over. *)
Theorem error_rule_terminal (data : partitions_data) (rs : ruleset) (input sc : scope)
  (pre post : list rule) :
  process_input_parameters (parameters rs) input = inr sc ->
  Forall (fun r' => eval_rule data r' sc = inr None) pre ->
  (forall cs msg sc1 m,
     rules rs = (pre ++ ErrorRule cs msg :: post)%list ->
     evaluate_conditions data cs sc = inr (true, sc1) ->
     render_template sc1 msg = inr m ->
     resolve_endpoint_uncached data rs input = inl (EndpointResolutionError m)) /\
  (forall r e,
     rules rs = (pre ++ r :: post)%list ->
     evaluate_conditions data (rule_conditions r) sc = inl e ->
     resolve_endpoint_uncached data rs input = inl e).
Proof.
  intros Hp Hpre; rewrite (resolve_endpoint_uncached_rules data rs input sc Hp); split.
  - intros cs msg sc1 m Hrs Hc Hm; rewrite Hrs, first_match_skip by exact Hpre.
    simpl; rewrite Hc; simpl; rewrite Hm; reflexivity.
  - intros r e Hrs He.
    rewrite <- (resolve_endpoint_uncached_rules data rs input sc Hp).
    exact (resolve_condition_error data rs input sc pre post r e Hp Hpre Hrs He).
Qed.

(** X7: conditions short-circuit: once a prefix of the conditions has
    failed, the conditions after it are never evaluated (they cannot
    raise nor bind), and a rule guarded by them does not match. *)
Theorem evaluate_conditions_short_circuit (data : partitions_data) (pre : list condition) :
  forall (sc sc1 : scope), evaluate_conditions data pre sc = inr (false, sc1) ->
  (forall cs, evaluate_conditions data (pre ++ cs) sc = inr (false, sc1)) /\
  (forall cs et, eval_rule data (EndpointRule (pre ++ cs) et) sc = inr None) /\
  (forall cs msg, eval_rule data (ErrorRule (pre ++ cs) msg) sc = inr None) /\
  (forall cs rs, eval_rule data (TreeRule (pre ++ cs) rs) sc = inr None).
Proof.
  assert (Hpre : forall (sc sc1 : scope), evaluate_conditions data pre sc = inr (false, sc1) ->
                 forall cs, evaluate_conditions data (pre ++ cs) sc = inr (false, sc1)).
  { induction pre as [|c pre IH]; intros sc sc1; simpl; [discriminate|].
    destruct (call_function data c sc) as [e|[v sc2]]; simpl; [discriminate|].
    destruct (condition_holds v); [intros H cs; exact (IH sc2 sc1 H cs)|intros H _; exact H]. }
  intros sc sc1 H; split; [exact (Hpre sc sc1 H)|].
  split; [|split]; intros cs x; simpl; rewrite (Hpre sc sc1 H cs); reflexivity.
Qed.

Lemma call_function_args (data : partitions_data) (fn : string) (argv : list arg) (sc sc1 : scope)
  (args : list value) :
  resolve_args data argv sc = inr (args, sc1) ->
  call_function data (Cond fn argv None) sc = (v ← call_lib data fn args; mret (v, sc1)).
Proof. intros H; rewrite call_function_unfold, H; reflexivity. Qed.

Lemma evaluate_conditions_cons (data : partitions_data) (c : condition) (cs : list condition)
  (sc : scope) :
  evaluate_conditions data (c :: cs) sc =
  ('(v, sc1) ← call_function data c sc;
   if condition_holds v then evaluate_conditions data cs sc1 else mret (false, sc1)).
Proof. reflexivity. Qed.

(** X8: [stringEquals] compares two strings; when its resolved operands
    are not both strings the condition raises "Both values must be
    strings", the conditions after it are not evaluated, and the error
    is fatal for the resolution rather than a non-matching rule. *)
Theorem string_equals_operands (data : partitions_data) (a b : arg) (sc sc1 : scope)
  (v1 v2 : value) :
  resolve_args data [a; b] sc = inr ([v1; v2], sc1) ->
  (forall x y, v1 = VStr x -> v2 = VStr y ->
     call_function data (Cond "stringEquals" [a; b] None) sc = inr (VBool (String.eqb x y), sc1)) /\
  ((forall x y, (v1, v2) <> (VStr x, VStr y)) ->
     (forall asg cs, evaluate_conditions data (Cond "stringEquals" [a; b] asg :: cs) sc =
        inl (EndpointResolutionError "Both values must be strings")) /\
     (forall rs input pre r post asg cs,
        process_input_parameters (parameters rs) input = inr sc ->
        rules rs = (pre ++ r :: post)%list ->
        Forall (fun r' => eval_rule data r' sc = inr None) pre ->
        rule_conditions r = Cond "stringEquals" [a; b] asg :: cs ->
        resolve_endpoint_uncached data rs input =
          inl (EndpointResolutionError "Both values must be strings"))).
Proof.
  intros Hargs.
  assert (Hlib : (forall x y, (v1, v2) <> (VStr x, VStr y)) ->
                 call_lib data "stringEquals" [v1; v2] =
                 inl (EndpointResolutionError "Both values must be strings")).
  { intros Hv; destruct v1, v2; try reflexivity; exfalso; exact (Hv _ _ eq_refl). }
  assert (Hcond : (forall x y, (v1, v2) <> (VStr x, VStr y)) -> forall asg cs,
                  evaluate_conditions data (Cond "stringEquals" [a; b] asg :: cs) sc =
                  inl (EndpointResolutionError "Both values must be strings")).
  { intros Hv asg cs; rewrite evaluate_conditions_cons.
    assert (Hc : call_function data (Cond "stringEquals" [a; b] asg) sc =
                 inl (EndpointResolutionError "Both values must be strings")).
    { rewrite call_function_unfold, Hargs; simpl; rewrite (Hlib Hv); reflexivity. }
    rewrite Hc; reflexivity. }
  split.
  - intros x y -> ->; rewrite (call_function_args data _ _ sc sc1 _ Hargs); reflexivity.
  - intros Hv; split; [exact (Hcond Hv)|].
    intros rs input pre r post asg cs Hp Hrs Hpre Hr.
    apply (resolve_condition_error data rs input sc pre post r _ Hp Hpre Hrs).
    rewrite Hr; exact (Hcond Hv asg cs).
Qed.

(** A library call that raises fails its condition chain and, in the
    first rule not passed over, the resolution. *)
Lemma call_lib_error_fatal (data : partitions_data) (fn : string) (argv : list arg)
  (sc sc1 : scope) (args : list value) (e : error) :
  resolve_args data argv sc = inr (args, sc1) -> call_lib data fn args = inl e ->
  (forall asg cs, evaluate_conditions data (Cond fn argv asg :: cs) sc = inl e) /\
  (forall rs input pre r post asg cs,
     process_input_parameters (parameters rs) input = inr sc ->
     rules rs = (pre ++ r :: post)%list ->
     Forall (fun r' => eval_rule data r' sc = inr None) pre ->
     rule_conditions r = Cond fn argv asg :: cs ->
     resolve_endpoint_uncached data rs input = inl e).
Proof.
  intros Hargs Hlib.
  assert (Hcond : forall asg cs, evaluate_conditions data (Cond fn argv asg :: cs) sc = inl e).
  { intros asg cs; rewrite evaluate_conditions_cons, call_function_unfold, Hargs; simpl.
    rewrite Hlib; reflexivity. }
  split; [exact Hcond|].
  intros rs input pre r post asg cs Hp Hrs Hpre Hr.
  apply (resolve_condition_error data rs input sc pre post r e Hp Hpre Hrs).
  rewrite Hr; exact (Hcond asg cs).
Qed.

(** X9: [booleanEquals] compares two booleans; when its resolved
    operands are not both booleans the condition raises "Both arguments
    must be bools", the conditions after it are not evaluated, and the
    error is fatal for the resolution. *)
Theorem boolean_equals_operands (data : partitions_data) (a b : arg) (sc sc1 : scope)
  (v1 v2 : value) :
  resolve_args data [a; b] sc = inr ([v1; v2], sc1) ->
  (forall x y, v1 = VBool x -> v2 = VBool y ->
     call_function data (Cond "booleanEquals" [a; b] None) sc = inr (VBool (Bool.eqb x y), sc1)) /\
  ((forall x y, (v1, v2) <> (VBool x, VBool y)) ->
     (forall asg cs, evaluate_conditions data (Cond "booleanEquals" [a; b] asg :: cs) sc =
        inl (EndpointResolutionError "Both arguments must be bools")) /\
     (forall rs input pre r post asg cs,
        process_input_parameters (parameters rs) input = inr sc ->
        rules rs = (pre ++ r :: post)%list ->
        Forall (fun r' => eval_rule data r' sc = inr None) pre ->
        rule_conditions r = Cond "booleanEquals" [a; b] asg :: cs ->
        resolve_endpoint_uncached data rs input =
          inl (EndpointResolutionError "Both arguments must be bools"))).
Proof.
  intros Hargs; split.
  - intros x y -> ->; rewrite (call_function_args data _ _ sc sc1 _ Hargs); reflexivity.
  - intros Hv; apply (call_lib_error_fatal data "booleanEquals" [a; b] sc sc1 [v1; v2] _ Hargs).
    destruct v1, v2; try reflexivity; exfalso; exact (Hv _ _ eq_refl).
Qed.

Lemma string_substring_length (s : string) :
  forall n m, (n + m <= String.length s)%nat -> String.length (String.substring n m s) = m.
Proof.
  induction s as [|c s IH]; intros [|n] [|m] H; simpl in *; try lia.
  - rewrite IH by lia; reflexivity.
  - apply IH; lia.
  - apply IH; lia.
Qed.

(** X10: [substring] raises "Input must be a string" for any input that
    is not a string; for a string input with integer bounds and a
    boolean [reverse] it never raises, and with bounds or flag of
    another type it is a resolution error; a string result spans
    exactly [stop - start] characters, counted from the end when
    [reverse] is set. *)
Theorem substring_input (s start stop rev : value) :
  ((forall x, s <> VStr x) ->
   substring s start stop rev = inl (EndpointResolutionError "Input must be a string")) /\
  (forall str st sp r, (s, start, stop, rev) = (VStr str, VInt st, VInt sp, VBool r) ->
   exists v, substring s start stop rev = inr v) /\
  (forall str, s = VStr str ->
   (forall st sp r, (start, stop, rev) <> (VInt st, VInt sp, VBool r)) ->
   substring s start stop rev = inl (type_error "substring")) /\
  (forall str st sp r t,
     (s, start, stop, rev) = (VStr str, VInt st, VInt sp, VBool r) ->
     substring s start stop rev = inr (VStr t) ->
     Z.of_nat (String.length t) = (sp - st)%Z /\
     t = String.substring (Z.to_nat (if r then Z.of_nat (String.length str) - sp else st)%Z)
                          (Z.to_nat (sp - st)) str).
Proof.
  split; [|split; [|split]].
  - intros Hs; destruct s; try reflexivity; exfalso; exact (Hs s eq_refl).
  - intros str st sp r [= -> -> -> ->]; unfold substring.
    destruct (_ && _); [destruct r; eexists; reflexivity|eexists; reflexivity].
  - intros str -> Hb; unfold substring.
    destruct start, stop, rev; try reflexivity; exfalso; exact (Hb _ _ _ eq_refl).
  - intros str st sp r t [= -> -> -> ->]; unfold substring.
    destruct ((0 <=? st)%Z && (st <? sp)%Z && (sp <=? Z.of_nat (String.length str))%Z
              && Str.forallb_str (fun ch => N.ltb (N_of_ascii ch) 128) str) eqn:E;
      [|discriminate].
    apply andb_true_iff in E as [E _]; apply andb_true_iff in E as [E E3];
      apply andb_true_iff in E as [E1 E2].
    apply Z.leb_le in E1; apply Z.ltb_lt in E2; apply Z.leb_le in E3.
    destruct r; simpl; intros [= <-];
      (split; [rewrite string_substring_length by lia; lia|f_equal; lia]).
Qed.

(** ** Parameters *)

Lemma process_input_parameters_app (pre ps : list parameter) :
  forall (input : scope),
  process_input_parameters (pre ++ ps) input =
    (sc ← process_input_parameters pre input; process_input_parameters ps sc).
Proof.
  induction pre as [|p pre IH]; intros input; [reflexivity|].
  cbn [process_input_parameters app].
  match goal with |- mbind _ ?m = _ => destruct m as [e|sc] end; [reflexivity|apply IH].
Qed.

(** X11: for a declared parameter whose input value [v] is looked up
    ([None] when absent), after the parameters before it: a set value of
    the wrong type fails the resolution with "Value (<name>) is the
    wrong type", before any rule is evaluated; a set value of the
    declared type is kept; an unset value ([None] or absent) takes the
    default when there is one, and otherwise fails the resolution with
    "Cannot find value for required parameter <name>" when the
    parameter is required, and is left as it is when not. *)
Theorem parameter_wrong_type (data : partitions_data) (rs : ruleset) (input sc : scope)
  (pre post : list parameter) (p : parameter) (v : value) :
  parameters rs = (pre ++ p :: post)%list ->
  process_input_parameters pre input = inr sc ->
  default VNone (sc !! param_name p) = v ->
  (is_set v = true -> type_ok (param_type p) v = false ->
   resolve_endpoint_uncached data rs input =
     inl (EndpointResolutionError ("Value (" ++ param_name p ++ ") is the wrong type"))) /\
  (is_set v = true -> type_ok (param_type p) v = true ->
   process_input_parameters (parameters rs) input = process_input_parameters post sc) /\
  (is_set v = false -> forall d, param_default p = Some d ->
   process_input_parameters (parameters rs) input =
     process_input_parameters post (<[param_name p := d]> sc)) /\
  (is_set v = false -> param_default p = None -> param_required p = true ->
   resolve_endpoint_uncached data rs input =
     inl (EndpointResolutionError ("Cannot find value for required parameter " ++ param_name p))) /\
  (is_set v = false -> param_default p = None -> param_required p = false ->
   process_input_parameters (parameters rs) input = process_input_parameters post sc).
Proof.
  intros Hps Hpre Hv.
  assert (Hp : process_input_parameters (parameters rs) input =
                 (sc' ← (if is_set v then (_ ← validate_input p v; mret sc)
                         else match param_default p with
                              | Some d => mret (<[param_name p := d]> sc)
                              | None =>
                                  if param_required p then
                                    raise (EndpointResolutionError
                                      ("Cannot find value for required parameter " ++ param_name p))
                                  else mret sc
                              end);
                  process_input_parameters post sc')).
  { rewrite Hps, process_input_parameters_app, Hpre; cbn [process_input_parameters mbind result_bind].
    rewrite Hv; reflexivity. }
  assert (Hr : forall e, process_input_parameters (parameters rs) input = inl e ->
                         resolve_endpoint_uncached data rs input = inl e).
  { intros e He; unfold resolve_endpoint_uncached, ruleset_evaluate; rewrite He; reflexivity. }
  split; [|split; [|split; [|split]]].
  - intros Hs Ht; apply Hr; rewrite Hp, Hs; unfold validate_input; rewrite Ht; reflexivity.
  - intros Hs Ht; rewrite Hp, Hs; unfold validate_input; rewrite Ht; reflexivity.
  - intros Hs d Hd; rewrite Hp, Hs, Hd; reflexivity.
  - intros Hs Hd Hq; apply Hr; rewrite Hp, Hs, Hd, Hq; reflexivity.
  - intros Hs Hd Hq; rewrite Hp, Hs, Hd, Hq; reflexivity.
Qed.

(** ** Auth schemes *)



Lemma select_auth_scheme_some (has_crt : bool) (auth_type_maps : list (string * value))
  (schemes : list auth_scheme) (r : string * list (string * value)) :
  select_auth_scheme has_crt auth_type_maps schemes = Some r ->
  exists s, In s schemes /\ usable_auth_type has_crt auth_type_maps s = Some r.
Proof.
  induction schemes as [|s rest IH]; simpl; [discriminate|].
  destruct (usable_auth_type has_crt auth_type_maps s) eqn:E.
  - intros [= <-]; exists s; split; [left; reflexivity|exact E].
  - intros H; destruct (IH H) as (s' & Hin & Hs'); exists s'; split; [right; exact Hin|exact Hs'].
Qed.

Lemma opt_entry_keys (k k' : string) (v : option value) :
  In k' (map fst (opt_entry k v)) -> k' = k.
Proof. destruct v; simpl; intuition congruence. Qed.

Lemma signing_context_keys (s : auth_scheme) (k : string) :
  In k (map fst (signing_context s)) ->
  k = "region" \/ k = "signing_name" \/ k = "disableDoubleEncoding".
Proof.
  unfold signing_context; rewrite !map_app, !in_app_iff.
  intros [H|[H|H]]; apply opt_entry_keys in H; auto.
Qed.

Lemma signing_context_v4a_keys (s : auth_scheme) (k : string) :
  In k (map fst (signing_context_v4a s)) -> k = "region" \/ k = "signing_name".
Proof.
  unfold signing_context_v4a; simpl; intros [H|H]; [left; congruence|].
  right; exact (opt_entry_keys _ _ _ H).
Qed.

(** X14: a signing context returned by [auth_schemes_to_signing_ctx]
    comes from one of the candidates [s]: the auth type is [v4] with the
    context of a [sigv4] candidate, [v4a] with the [sigv4a] context of a
    [sigv4a] candidate when the acceleration capability is present, or
    the name of a candidate listed in the alias table with its context;
    and the context has no keys other than [region], [signing_name] and
    [disableDoubleEncoding]. *)
Theorem auth_signing_ctx_origin (has_crt : bool) (auth_type_maps : list (string * value))
  (schemes : list auth_scheme) (t : string) (ctx : list (string * value)) :
  auth_schemes_to_signing_ctx has_crt auth_type_maps schemes = inr (t, ctx) ->
  (exists s, In s schemes /\
     ((t = "v4" /\ scheme_name s = "sigv4" /\ ctx = signing_context s) \/
      (t = "v4a" /\ scheme_name s = "sigv4a" /\ has_crt = true /\ ctx = signing_context_v4a s) \/
      (t = scheme_name s /\ In t (map fst auth_type_maps) /\ ctx = signing_context s))) /\
  (forall k, In k (map fst ctx) ->
     k = "region" \/ k = "signing_name" \/ k = "disableDoubleEncoding").
Proof.
  unfold auth_schemes_to_signing_ctx.
  destruct (select_auth_scheme has_crt auth_type_maps schemes) as [r|] eqn:E;
    [|destruct (_ && _); discriminate].
  intros [= ->]; apply select_auth_scheme_some in E as (s & Hin & Hs).
  unfold usable_auth_type in Hs.
  destruct (String.eqb (scheme_name s) "sigv4") eqn:E4; [|destruct (String.eqb (scheme_name s) "sigv4a") eqn:E4a].
  - injection Hs as <- <-; apply String.eqb_eq in E4; split.
    + exists s; split; [exact Hin|left; auto].
    + apply signing_context_keys.
  - destruct has_crt eqn:Hc; [|discriminate].
    injection Hs as <- <-; apply String.eqb_eq in E4a; split.
    + exists s; split; [exact Hin|right; left; auto].
    + intros k Hk; destruct (signing_context_v4a_keys s k Hk); auto.
  - destruct (existsb _ auth_type_maps) eqn:Em; [|discriminate].
    injection Hs as <- <-; split.
    + exists s; split; [exact Hin|right; right; split; [reflexivity|split; [|reflexivity]]].
      apply existsb_exists in Em as ([k v] & Hkv & Hk); apply String.eqb_eq in Hk; simpl in Hk; subst k.
      apply (in_map fst) in Hkv; exact Hkv.
    + apply signing_context_keys.
Qed.

(* ------------------------------------------------------------------ *)
(** ** Instances of the hypotheses of the further properties *)

Lemma provider_cache_transparent_witness :
  cache_ok region_evaluate (cache (new_provider (K:=scope) (R:=endpoint) 2)) /\
  (resolve_all region_evaluate (new_provider 2)
     (map region_snapshot ["us-east-1"; "us-west-2"; "eu-west-1"; "us-east-1"])).1 =
  map region_evaluate (map region_snapshot ["us-east-1"; "us-west-2"; "eu-west-1"; "us-east-1"]).
Proof.
  assert (H : cache_ok region_evaluate (cache (new_provider (K:=scope) (R:=endpoint) 2)))
    by constructor.
  split; [exact H|].
  exact (proj1 (provider_cache_transparent partitions_json region_ruleset
                  (map region_snapshot ["us-east-1"; "us-west-2"; "eu-west-1"; "us-east-1"])
                  (new_provider 2) H)).
Defined.

Lemma provider_cache_bounded_witness :
  (length (cache (new_provider (K:=scope) (R:=endpoint) 2)) <= capacity (new_provider (K:=scope) (R:=endpoint) 2))%nat /\
  (length (cache (resolve_all region_evaluate (new_provider 2)
     (map region_snapshot ["us-east-1"; "us-west-2"; "eu-west-1"; "us-east-1"])).2) <= 2)%nat.
Proof.
  assert (H : (length (cache (new_provider (K:=scope) (R:=endpoint) 2)) <=
               capacity (new_provider (K:=scope) (R:=endpoint) 2))%nat) by (simpl; lia).
  split; [exact H|].
  exact (proj1 (provider_cache_bounded partitions_json region_ruleset
                  (map region_snapshot ["us-east-1"; "us-west-2"; "eu-west-1"; "us-east-1"])
                  (new_provider 2) H)).
Defined.

Lemma aws_parse_arn_roundtrip_witness :
  Str.existsb_str (Str.is_char ":") "aws-cn" = false /\
  aws_parse_arn (VStr ("arn:" ++ "aws-cn" ++ ":" ++ "s3" ++ ":" ++ "cn-north-1" ++ ":" ++
                       "123456789012" ++ ":" ++ "accesspoint:myendpoint/x")) =
    inr (VDict [("partition", VStr "aws-cn"); ("service", VStr "s3"); ("region", VStr "cn-north-1");
                ("accountId", VStr "123456789012");
                ("resourceId", VList (map VStr (Str.split_by
                   (fun ch => Str.is_char "/" ch || Str.is_char ":" ch) "accesspoint:myendpoint/x")))]) /\
  aws_parse_arn (VInt 5) = inl (type_error "aws.parseArn").
Proof.
  destruct (aws_parse_arn_roundtrip "aws-cn" "s3" "cn-north-1" "123456789012"
              "accesspoint:myendpoint/x" eq_refl eq_refl eq_refl eq_refl) as (H1 & _ & H3).
  split; [reflexivity|split; [exact H1|]].
  apply H3; [discriminate|intros x; discriminate].
Defined.

Lemma virtual_hostable_allow_monotone_witness :
  aws_is_virtual_hostable_s3_bucket (VStr "my-bucket") (VBool false) = inr (VBool true) /\
  aws_is_virtual_hostable_s3_bucket (VStr "my-bucket") (VBool true) = inr (VBool true) /\
  aws_is_virtual_hostable_s3_bucket VNone (VBool true) = inr (VBool false) /\
  aws_is_virtual_hostable_s3_bucket (VStr "my-bucket") (VStr "true") =
    inl (type_error "aws.isVirtualHostableS3Bucket").
Proof.
  assert (H : aws_is_virtual_hostable_s3_bucket (VStr "my-bucket") (VBool false) = inr (VBool true))
    by (vm_compute; reflexivity).
  destruct (virtual_hostable_allow_monotone "my-bucket") as (H1 & H2 & H3).
  split; [exact H|split; [exact (H1 H)|split; [apply H2|]]].
  apply H3; [discriminate|intros x y; discriminate].
Defined.

Lemma first_match_wins_witness :
  process_input_parameters (parameters account_id_ruleset) (region_snapshot "us-east-1") =
    inr (region_snapshot "us-east-1") /\
  resolve_endpoint_uncached partitions_json account_id_ruleset (region_snapshot "us-east-1") =
    inr (Endpoint "https://amazonaws.com" [] []) /\
  resolve_endpoint_uncached partitions_json
    (RuleSet "1.0" (parameters account_id_ruleset)
       [EndpointRule [Cond "isSet" [ARef "AccountId"] None]
          (EndpointTemplate "https://{AccountId}.amazonaws.com" [] [])])
    (region_snapshot "us-east-1") =
    inl (EndpointResolutionError "No endpoint found for parameters").
Proof.
  assert (Hp : process_input_parameters (parameters account_id_ruleset) (region_snapshot "us-east-1") =
               inr (region_snapshot "us-east-1")) by (vm_compute; reflexivity).
  split; [exact Hp|split].
  - apply (proj1 (first_match_wins partitions_json account_id_ruleset _ _ Hp)
             [EndpointRule [Cond "isSet" [ARef "AccountId"] None]
                (EndpointTemplate "https://{AccountId}.amazonaws.com" [] [])]
             (EndpointRule [] (EndpointTemplate "https://amazonaws.com" [] [])) []);
      [reflexivity|constructor; [vm_compute; reflexivity|constructor]|vm_compute; reflexivity].
  - apply (proj2 (first_match_wins partitions_json
                    (RuleSet "1.0" (parameters account_id_ruleset)
                       [EndpointRule [Cond "isSet" [ARef "AccountId"] None]
                          (EndpointTemplate "https://{AccountId}.amazonaws.com" [] [])])
                    _ _ Hp)).
    constructor; [vm_compute; reflexivity|constructor].
Defined.

Lemma error_rule_terminal_witness :
  resolve_endpoint_uncached partitions_json
    (RuleSet "1.0" [Parameter_ "Region" PString None None true None]
       [ErrorRule [Cond "isSet" [ARef "Region"] None] "Invalid region {Region}";
        EndpointRule [] (EndpointTemplate "https://{Region}.amazonaws.com" [] [])])
    (region_snapshot "mars-1") =
    inl (EndpointResolutionError "Invalid region mars-1") /\
  resolve_endpoint_uncached partitions_json
    (RuleSet "1.0" [Parameter_ "Region" PString None None true None]
       [EndpointRule [Cond "booleanEquals" [ARef "Region"; ABool true] None]
          (EndpointTemplate "https://{Region}.amazonaws.com" [] []);
        EndpointRule [] (EndpointTemplate "https://amazonaws.com" [] [])])
    (region_snapshot "mars-1") =
    inl (EndpointResolutionError "Both arguments must be bools").
Proof.
  split.
  - apply (proj1 (error_rule_terminal partitions_json
                    (RuleSet "1.0" [Parameter_ "Region" PString None None true None]
                       [ErrorRule [Cond "isSet" [ARef "Region"] None] "Invalid region {Region}";
                        EndpointRule [] (EndpointTemplate "https://{Region}.amazonaws.com" [] [])])
                    (region_snapshot "mars-1") (region_snapshot "mars-1") []
                    [EndpointRule [] (EndpointTemplate "https://{Region}.amazonaws.com" [] [])]
                    ltac:(vm_compute; reflexivity) ltac:(constructor))
             [Cond "isSet" [ARef "Region"] None] "Invalid region {Region}" (region_snapshot "mars-1"));
      [reflexivity|vm_compute; reflexivity|vm_compute; reflexivity].
  - apply (proj2 (error_rule_terminal partitions_json
                    (RuleSet "1.0" [Parameter_ "Region" PString None None true None]
                       [EndpointRule [Cond "booleanEquals" [ARef "Region"; ABool true] None]
                          (EndpointTemplate "https://{Region}.amazonaws.com" [] []);
                        EndpointRule [] (EndpointTemplate "https://amazonaws.com" [] [])])
                    (region_snapshot "mars-1") (region_snapshot "mars-1") []
                    [EndpointRule [] (EndpointTemplate "https://amazonaws.com" [] [])]
                    ltac:(vm_compute; reflexivity) ltac:(constructor))
             (EndpointRule [Cond "booleanEquals" [ARef "Region"; ABool true] None]
                (EndpointTemplate "https://{Region}.amazonaws.com" [] [])));
      [reflexivity|vm_compute; reflexivity].
Defined.

Lemma evaluate_conditions_short_circuit_witness :
  evaluate_conditions partitions_json [Cond "isSet" [ARef "AccountId"] None] (region_snapshot "us-east-1") =
    inr (false, region_snapshot "us-east-1") /\
  evaluate_conditions partitions_json
    ([Cond "isSet" [ARef "AccountId"] None] ++
     [Cond "stringEquals" [AInt 1; AInt 2] (Some "Region")]) (region_snapshot "us-east-1") =
    inr (false, region_snapshot "us-east-1") /\
  eval_rule partitions_json
    (ErrorRule ([Cond "isSet" [ARef "AccountId"] None] ++ [Cond "not" [] None]) "unreachable")
    (region_snapshot "us-east-1") = inr None.
Proof.
  assert (H : evaluate_conditions partitions_json [Cond "isSet" [ARef "AccountId"] None]
                (region_snapshot "us-east-1") = inr (false, region_snapshot "us-east-1"))
    by (vm_compute; reflexivity).
  destruct (evaluate_conditions_short_circuit partitions_json _ _ _ H) as (H1 & _ & H2 & _).
  split; [exact H|split; [apply H1|apply H2]].
Defined.

Lemma string_equals_operands_witness :
  resolve_args partitions_json [ARef "Region"; AStr "us-{Region}"] (region_snapshot "east-1") =
    inr ([VStr "east-1"; VStr "us-east-1"], region_snapshot "east-1") /\
  call_function partitions_json (Cond "stringEquals" [ARef "Region"; AStr "us-{Region}"] None)
    (region_snapshot "east-1") = inr (VBool false, region_snapshot "east-1") /\
  resolve_args partitions_json [ARef "Region"; ABool true] (region_snapshot "east-1") =
    inr ([VStr "east-1"; VBool true], region_snapshot "east-1") /\
  evaluate_conditions partitions_json
    [Cond "stringEquals" [ARef "Region"; ABool true] None; Cond "not" [] None]
    (region_snapshot "east-1") = inl (EndpointResolutionError "Both values must be strings").
Proof.
  assert (H1 : resolve_args partitions_json [ARef "Region"; AStr "us-{Region}"] (region_snapshot "east-1") =
               inr ([VStr "east-1"; VStr "us-east-1"], region_snapshot "east-1"))
    by (vm_compute; reflexivity).
  assert (H2 : resolve_args partitions_json [ARef "Region"; ABool true] (region_snapshot "east-1") =
               inr ([VStr "east-1"; VBool true], region_snapshot "east-1"))
    by (vm_compute; reflexivity).
  split; [exact H1|split; [|split; [exact H2|]]].
  - exact (proj1 (string_equals_operands partitions_json _ _ _ _ _ _ H1) _ _ eq_refl eq_refl).
  - apply (proj1 (proj2 (string_equals_operands partitions_json _ _ _ _ _ _ H2)
                    ltac:(intros x y; discriminate))).
Defined.

Lemma boolean_equals_operands_witness :
  resolve_args partitions_json [ABool true; AFn (Cond "isSet" [ARef "Region"] None)]
    (region_snapshot "us-east-1") =
    inr ([VBool true; VBool true], region_snapshot "us-east-1") /\
  call_function partitions_json
    (Cond "booleanEquals" [ABool true; AFn (Cond "isSet" [ARef "Region"] None)] None)
    (region_snapshot "us-east-1") = inr (VBool true, region_snapshot "us-east-1") /\
  resolve_args partitions_json [ARef "Region"; ABool true] (region_snapshot "us-east-1") =
    inr ([VStr "us-east-1"; VBool true], region_snapshot "us-east-1") /\
  resolve_endpoint_uncached partitions_json
    (RuleSet "1.0" [Parameter_ "Region" PString None None true None]
       [EndpointRule [Cond "booleanEquals" [ARef "Region"; ABool true] None]
          (EndpointTemplate "https://{Region}.amazonaws.com" [] [])])
    (region_snapshot "us-east-1") = inl (EndpointResolutionError "Both arguments must be bools").
Proof.
  assert (H1 : resolve_args partitions_json [ABool true; AFn (Cond "isSet" [ARef "Region"] None)]
                 (region_snapshot "us-east-1") =
               inr ([VBool true; VBool true], region_snapshot "us-east-1"))
    by (vm_compute; reflexivity).
  assert (H2 : resolve_args partitions_json [ARef "Region"; ABool true] (region_snapshot "us-east-1") =
               inr ([VStr "us-east-1"; VBool true], region_snapshot "us-east-1"))
    by (vm_compute; reflexivity).
  split; [exact H1|split; [|split; [exact H2|]]].
  - exact (proj1 (boolean_equals_operands partitions_json _ _ _ _ _ _ H1) _ _ eq_refl eq_refl).
  - apply (proj2 (proj2 (boolean_equals_operands partitions_json _ _ _ _ _ _ H2)
                    ltac:(intros x y; discriminate))
             _ _ [] (EndpointRule [Cond "booleanEquals" [ARef "Region"; ABool true] None]
                       (EndpointTemplate "https://{Region}.amazonaws.com" [] [])) [] None []);
      [vm_compute; reflexivity|reflexivity|constructor|reflexivity].
Defined.

Lemma substring_input_witness :
  substring (VInt 3) (VInt 0) (VInt 1) (VBool false) =
    inl (EndpointResolutionError "Input must be a string") /\
  substring (VStr "abc") (VStr "0") (VInt 1) (VBool false) = inl (type_error "substring") /\
  substring (VStr "abcdef") (VInt 1) (VInt 4) (VBool true) = inr (VStr "cde") /\
  Z.of_nat (String.length "cde") = (4 - 1)%Z.
Proof.
  assert (H : substring (VStr "abcdef") (VInt 1) (VInt 4) (VBool true) = inr (VStr "cde"))
    by (vm_compute; reflexivity).
  destruct (substring_input (VInt 3) (VInt 0) (VInt 1) (VBool false)) as [H1 _].
  destruct (substring_input (VStr "abc") (VStr "0") (VInt 1) (VBool false)) as (_ & _ & H2 & _).
  destruct (substring_input (VStr "abcdef") (VInt 1) (VInt 4) (VBool true)) as (_ & _ & _ & H3).
  split; [apply H1; intros x; discriminate|split; [|split; [exact H|]]].
  - apply (H2 "abc" eq_refl); intros st sp r; discriminate.
  - exact (proj1 (H3 "abcdef" 1%Z 4%Z true "cde" eq_refl H)).
Defined.

Lemma parameter_wrong_type_witness :
  resolve_endpoint_uncached partitions_json region_ruleset (<["Region" := VInt 1]> ∅ : scope) =
    inl (EndpointResolutionError "Value (Region) is the wrong type") /\
  resolve_endpoint_uncached partitions_json region_ruleset (<["Region" := VNone]> ∅ : scope) =
    inl (EndpointResolutionError "Cannot find value for required parameter Region") /\
  process_input_parameters [Parameter_ "UseFIPS" PBoolean None (Some (VBool false)) true None]
    (<["UseFIPS" := VNone]> ∅ : scope) =
    inr (<["UseFIPS" := VBool false]> (<["UseFIPS" := VNone]> ∅ : scope)).
Proof.
  set (input1 := (<["Region" := VInt 1]> ∅ : scope)).
  set (input2 := (<["Region" := VNone]> ∅ : scope)).
  set (input3 := (<["UseFIPS" := VNone]> ∅ : scope)).
  assert (Hv1 : default VNone (input1 !! "Region") = VInt 1) by (vm_compute; reflexivity).
  assert (Hv2 : default VNone (input2 !! "Region") = VNone) by (vm_compute; reflexivity).
  assert (Hv3 : default VNone (input3 !! "UseFIPS") = VNone) by (vm_compute; reflexivity).
  split; [|split].
  - exact (proj1 (parameter_wrong_type partitions_json region_ruleset input1 input1 [] []
                    _ (VInt 1) eq_refl eq_refl Hv1) eq_refl eq_refl).
  - exact (proj1 (proj2 (proj2 (proj2 (parameter_wrong_type partitions_json region_ruleset
                    input2 input2 [] [] _ VNone eq_refl eq_refl Hv2)))) eq_refl eq_refl eq_refl).
  - exact (proj1 (proj2 (proj2 (parameter_wrong_type partitions_json
                    (RuleSet "1.0" [Parameter_ "UseFIPS" PBoolean None (Some (VBool false)) true None] [])
                    input3 input3 [] [] _ VNone eq_refl eq_refl Hv3))) eq_refl (VBool false) eq_refl).
Defined.


Lemma auth_signing_ctx_origin_witness :
  auth_schemes_to_signing_ctx false [("bar", VNone)]
    [[("name", VStr "foo")];
     [("name", VStr "sigv4"); ("signingName", VStr "s3"); ("signingRegion", VStr "us-west-2");
      ("signingRegionSet", VList [])]] =
    inr ("v4", [("region", VStr "us-west-2"); ("signing_name", VStr "s3")]) /\
  (forall k, In k (map fst [("region", VStr "us-west-2"); ("signing_name", VStr "s3")]) ->
     k = "region" \/ k = "signing_name" \/ k = "disableDoubleEncoding").
Proof.
  assert (H : auth_schemes_to_signing_ctx false [("bar", VNone)]
                [[("name", VStr "foo")];
                 [("name", VStr "sigv4"); ("signingName", VStr "s3");
                  ("signingRegion", VStr "us-west-2"); ("signingRegionSet", VList [])]] =
              inr ("v4", [("region", VStr "us-west-2"); ("signing_name", VStr "s3")]))
    by (vm_compute; reflexivity).
  split; [exact H|exact (proj2 (auth_signing_ctx_origin _ _ _ _ _ H))].
Defined.

(** ** Template strings *)

Lemma string_app_cons (ch : ascii) (s t : string) : (String ch s ++ t)%string = String ch (s ++ t).
Proof. reflexivity. Qed.

Lemma string_app_nil_r (s : string) : (s ++ "")%string = s.
Proof. induction s as [|ch s IH]; [reflexivity|rewrite string_app_cons, IH; reflexivity]. Qed.

Lemma string_app_assoc (a b c : string) : (a ++ b ++ c)%string = ((a ++ b) ++ c)%string.
Proof. induction a as [|ch a IH]; [reflexivity|rewrite !string_app_cons, IH; reflexivity]. Qed.

Lemma render_aux_plain (sc : scope) (s r : string) :
  Str.existsb_str (Str.is_char "{") s = false ->
  render_aux sc (s ++ r) None = (x ← render_aux sc r None; mret (s ++ x)%string).
Proof.
  induction s as [|ch s IH]; intros H.
  - change ("" ++ r)%string with r; destruct (render_aux sc r None); reflexivity.
  - simpl in H; apply orb_false_iff in H as [H1 H2]; unfold Str.is_char in H1.
    rewrite string_app_cons; cbn [render_aux]; rewrite H1, (IH H2).
    destruct (render_aux sc r None); reflexivity.
Qed.

Lemma render_aux_ref (sc : scope) (name rest : string) :
  Str.existsb_str (Str.is_char "}") name = false -> forall acc,
  render_aux sc (name ++ String "}" rest) (Some acc) =
    (v ← resolve_reference sc (acc ++ name); r ← render_aux sc rest None; mret (py_str v ++ r)%string).
Proof.
  induction name as [|ch name IH]; intros H acc.
  - change ("" ++ String "}" rest)%string with (String "}" rest); cbn [render_aux].
    rewrite string_app_nil_r; reflexivity.
  - simpl in H; apply orb_false_iff in H as [H1 H2]; unfold Str.is_char in H1.
    rewrite string_app_cons; cbn [render_aux]; rewrite H1, (IH H2).
    rewrite <- string_app_assoc; reflexivity.
Qed.

(** X15: in a template string, text without ['{'] is copied as it is,
    and a placeholder [{name}] (a name without ['}'] or ['#']) is
    replaced by [str()] of the variable's value; a variable missing from
    the scope raises [KeyError]. *)
Theorem render_template_placeholder (sc : scope) (pre name post : string) :
  Str.existsb_str (Str.is_char "{") pre = false ->
  Str.existsb_str (Str.is_char "{") post = false ->
  Str.existsb_str (Str.is_char "}") name = false ->
  Str.existsb_str (Str.is_char "#") name = false ->
  render_template sc pre = inr pre /\
  render_template sc (pre ++ "{" ++ name ++ "}" ++ post) =
    match sc !! name with
    | Some v => inr (pre ++ py_str v ++ post)%string
    | None => inl (KeyError name)
    end.
Proof.
  intros Hpre Hpost Hn1 Hn2.
  assert (Hplain : forall s, Str.existsb_str (Str.is_char "{") s = false -> render_template sc s = inr s).
  { intros s Hs; unfold render_template; rewrite <- (string_app_nil_r s) at 1.
    rewrite (render_aux_plain sc s "" Hs); simpl; rewrite string_app_nil_r; reflexivity. }
  split; [exact (Hplain pre Hpre)|].
  unfold render_template; rewrite (render_aux_plain sc pre _ Hpre).
  change ("{" ++ ?x)%string with (String "{" x); change ("}" ++ ?x)%string with (String "}" x).
  simpl render_aux at 1; rewrite (render_aux_ref sc name post Hn1 "").
  unfold resolve_reference; change ("" ++ name)%string with name; rewrite (split_by_without _ name Hn2).
  pose proof (Hplain post Hpost) as Hp; unfold render_template in Hp.
  destruct (sc !! name); simpl; [rewrite Hp; reflexivity|reflexivity].
Qed.

Lemma render_template_placeholder_witness :
  render_template (region_snapshot "us-west-2") "https://" = inr "https://" /\
  render_template (region_snapshot "us-west-2") ("https://" ++ "{" ++ "Region" ++ "}" ++ ".amazonaws.com") =
    inr "https://us-west-2.amazonaws.com" /\
  render_template (region_snapshot "us-west-2") ("https://" ++ "{" ++ "Bucket" ++ "}" ++ ".s3") =
    inl (KeyError "Bucket").
Proof.
  destruct (render_template_placeholder (region_snapshot "us-west-2") "https://" "Region" ".amazonaws.com"
              eq_refl eq_refl eq_refl eq_refl) as [H1 H2].
  destruct (render_template_placeholder (region_snapshot "us-west-2") "https://" "Bucket" ".s3"
              eq_refl eq_refl eq_refl eq_refl) as [_ H3].
  split; [exact H1|split].
  - rewrite H2; vm_compute; reflexivity.
  - rewrite H3; vm_compute; reflexivity.
Defined.
